(** * A shallow embedding of the relay server of bitcoin-nostr-relay

    The embedding follows [src/relay/server.rs] and [src/relay/config.rs].
    The server is written against shared state ([clients],
    [remote_transactions]) and external collaborators (the Bitcoin RPC
    endpoint over HTTP, the transaction validator, the bus WebSocket, the
    clock, serde and the bitcoin crate). Shared state is threaded through a
    state monad; every observable effect is appended to a history, which is
    the linearisation of what the tasks do to the outside world and to the
    shared maps. The collaborators are oracles that see this history, so
    their answers may change over time. *)

From Stdlib Require Import ZArith Ascii.
From stdpp Require Import base gmap sets list strings.

Set Warnings "-register-all".

(* ------------------------------------------------------------------ *)
(** ** JSON values ([serde_json::Value]) and their compact [Display] *)

Inductive Value : Type :=
| VNull
| VBool (b : bool)
| VNumber (n : Z)
| VString (s : string)
| VArray (xs : list Value)
| VObject (kvs : list (string * Value)).

(** [Value::get(key)]: [None] unless the value is an object holding [key]. *)
Fixpoint assoc_lookup (key : string) (kvs : list (string * Value)) : option Value :=
  match kvs with
  | [] => None
  | (k, v) :: rest => if decide (k = key) then Some v else assoc_lookup key rest
  end.

Definition value_get (key : string) (v : Value) : option Value :=
  match v with
  | VObject kvs => assoc_lookup key kvs
  | _ => None
  end.

(** [value[key]]: indexing yields [Null] where [get] yields [None]. *)
Definition value_index (key : string) (v : Value) : Value :=
  match value_get key v with Some x => x | None => VNull end.

Definition value_is_null (v : Value) : bool :=
  match v with VNull => true | _ => false end.

Definition value_as_str (v : Value) : option string :=
  match v with VString s => Some s | _ => None end.

Definition value_as_array (v : Value) : option (list Value) :=
  match v with VArray xs => Some xs | _ => None end.

(** Decimal digits of a natural number. *)
Fixpoint n_digits (fuel : nat) (n : N) (acc : string) : string :=
  match fuel with
  | O => acc
  | S f =>
      let acc' := String (ascii_of_N (48 + N.modulo n 10)) acc in
      if (n <? 10)%N then acc' else n_digits f (N.div n 10) acc'
  end.

Definition N_to_string (n : N) : string := n_digits (S (N.to_nat (N.size n))) n EmptyString.

Definition Z_to_string (z : Z) : string :=
  match z with
  | Zneg p => String "-" (N_to_string (Npos p))
  | _ => N_to_string (Z.to_N z)
  end.

Definition hex_digit (n : N) : ascii :=
  if (n <? 10)%N then ascii_of_N (48 + n) else ascii_of_N (87 + n).

(** One-character strings for the quote and the backslash. *)
Definition dquote : string := String "034"%char EmptyString.
Definition bslash : string := String "092"%char EmptyString.

(** serde_json's string escaping: quote, backslash and control bytes. *)
Definition escape_char (c : ascii) : string :=
  match c with
  | "034"%char => bslash +:+ dquote
  | "092"%char => bslash +:+ bslash
  | "008"%char => bslash +:+ "b"
  | "012"%char => bslash +:+ "f"
  | "010"%char => bslash +:+ "n"
  | "013"%char => bslash +:+ "r"
  | "009"%char => bslash +:+ "t"
  | _ =>
      let n := N_of_ascii c in
      if (n <? 32)%N
      then bslash +:+ "u00" +:+
             String (hex_digit (N.div n 16)) (String (hex_digit (N.modulo n 16)) EmptyString)
      else String c EmptyString
  end.

Fixpoint escape (s : string) : string :=
  match s with
  | EmptyString => EmptyString
  | String c rest => escape_char c +:+ escape rest
  end.

Definition quote (s : string) : string := dquote +:+ escape s +:+ dquote.

Fixpoint value_to_string (v : Value) : string :=
  match v with
  | VNull => "null"
  | VBool true => "true"
  | VBool false => "false"
  | VNumber n => Z_to_string n
  | VString s => quote s
  | VArray xs =>
      let fix go (xs : list Value) : string :=
        match xs with
        | [] => EmptyString
        | [x] => value_to_string x
        | x :: rest => value_to_string x +:+ "," +:+ go rest
        end in
      "[" +:+ go xs +:+ "]"
  | VObject kvs =>
      let fix go (kvs : list (string * Value)) : string :=
        match kvs with
        | [] => EmptyString
        | [(k, x)] => quote k +:+ ":" +:+ value_to_string x
        | (k, x) :: rest => quote k +:+ ":" +:+ value_to_string x +:+ "," +:+ go rest
        end in
      "{" +:+ go kvs +:+ "}"
  end.

(* ------------------------------------------------------------------ *)
(** ** Strings and bytes *)

(** A byte is a [Z] in [0, 256). *)
Definition hex_val (c : ascii) : option Z :=
  let n := Z.of_N (N_of_ascii c) in
  if (48 <=? n)%Z && (n <=? 57)%Z then Some (n - 48)%Z
  else if (97 <=? n)%Z && (n <=? 102)%Z then Some (n - 87)%Z
  else if (65 <=? n)%Z && (n <=? 70)%Z then Some (n - 55)%Z
  else None.

Fixpoint hex_pairs (s : string) : option (list Z) :=
  match s with
  | EmptyString => Some []
  | String hi (String lo rest) =>
      match hex_val hi, hex_val lo, hex_pairs rest with
      | Some h, Some l, Some bs => Some ((16 * h + l)%Z :: bs)
      | _, _, _ => None
      end
  | String _ EmptyString => None
  end.

(** [hex::decode]: odd length, or a non-hex digit, is an error. *)
Definition hex_decode (s : string) : option (list Z) :=
  if Nat.odd (String.length s) then None else hex_pairs s.

(** [hex::encode]: lower-case digits. *)
Fixpoint hex_encode (bs : list Z) : string :=
  match bs with
  | [] => EmptyString
  | b :: rest =>
      String (hex_digit (Z.to_N (b / 16)%Z)) (String (hex_digit (Z.to_N (b mod 16)%Z)) (hex_encode rest))
  end.

(** [str::trim] on ASCII white space. *)
Fixpoint trim_start (s : string) : string :=
  match s with
  | String c rest => if Ascii.is_space c then trim_start rest else s
  | EmptyString => EmptyString
  end.

Definition trim (s : string) : string :=
  String.rev (trim_start (String.rev (trim_start s))).

(** [str::contains] for a string pattern. *)
Fixpoint contains (hay pat : string) : bool :=
  String.prefix pat hay ||
  match hay with
  | EmptyString => false
  | String _ rest => contains rest pat
  end.

(* ------------------------------------------------------------------ *)
(** ** Errors ([src/error.rs]) *)

Inductive ValidationError : Type :=
| EmptyTransaction
| InvalidHex
| InvalidSize (size : N)
| InvalidStructure
| RecentlyProcessed (txid : string)
| BitcoinCoreRejection (reason : string)
| Timeout
| Disabled.

(** The [#[error(...)]] attributes of [ValidationError]. *)
Definition validation_error_to_string (e : ValidationError) : string :=
  match e with
  | EmptyTransaction => "Empty transaction"
  | InvalidHex => "Invalid hex format"
  | InvalidSize size => "Invalid transaction size: " +:+ N_to_string size +:+ " bytes"
  | InvalidStructure => "Invalid transaction structure"
  | RecentlyProcessed txid => "Transaction " +:+ txid +:+ " recently processed (cached)"
  | BitcoinCoreRejection reason => "Bitcoin Core rejection: " +:+ reason
  | Timeout => "Validation timeout"
  | Disabled => "Validation disabled"
  end.

(** The validator's answer: [Result<(), ValidationError>]. *)
Inductive ValidationResult : Type :=
| ValOk
| ValErr (e : ValidationError).

(** [anyhow::Error], as the server uses it: nothing but its message. *)
Record AnyError : Type := anyhow { error_msg : string }.

(* ------------------------------------------------------------------ *)
(** ** Nostr events (the parts the server reads or writes) *)

Inductive TagKind : Type :=
| TK_Custom (name : string)
| TK_Standard (name : string).

Inductive Tag : Type :=
| Hashtag (t : string)
| Generic (k : TagKind) (values : list string)
| OtherTag (fields : list string).

(** [id], [pubkey], [created_at] and [sig] are left out: no claim reads them. *)
Record Event : Type := mkEvent {
  kind : N;
  content : string;
  tags : list Tag
}.

Definition KIND_SUBMIT_TX : N := 20010.
Definition KIND_TX_RESPONSE : N := 20011.
Definition KIND_TX_BROADCAST : N := 20012.
Definition KIND_REQUEST_TX : N := 20013.

(** [EventBuilder::new(kind, content, tags).to_event(keys)]; signing with the
    process keypair is taken to succeed. *)
Definition to_event (k : N) (c : string) (ts : list Tag) : Event :=
  {| kind := k; content := c; tags := ts |}.

(* ------------------------------------------------------------------ *)
(** ** Configuration ([src/relay/config.rs]) *)

Record RpcAuth : Type := { username : string; password : string }.

(** [std::time::Duration]. *)
Record Duration : Type := { dur_secs : N; dur_nanos : N }.

Definition Duration_from_secs (s : N) : Duration := {| dur_secs := s; dur_nanos := 0 |}.

(** [std::net::SocketAddr]. *)
Record SocketAddr : Type := { sa_ip : list N; sa_port : N }.

(** [crate::validation::ValidationConfig] (fields as its users read them). *)
Record ValidationConfig : Type := {
  enable_validation : bool;
  enable_precheck : bool;
  validation_timeout_ms : N;
  cache_ttl_seconds : N;
  cache_size : N
}.

Record RelayConfig : Type := {
  bitcoin_rpc_url : string;
  bitcoin_rpc_auth : RpcAuth;
  strfry_url : string;
  relay_id : string;
  websocket_listen_addr : SocketAddr;
  validation_config : ValidationConfig;
  mempool_poll_interval : Duration;
  max_client_connections : nat;
  websocket_buffer_size : nat
}.

(** [RelayConfig::new]; [ValidationConfig::default()] is a parameter. *)
Definition RelayConfig_new (validation_default : ValidationConfig)
    (bitcoin_rpc_url strfry_url relay_id : string) (websocket_listen_addr : SocketAddr)
  : RelayConfig :=
  {| bitcoin_rpc_url := bitcoin_rpc_url;
     bitcoin_rpc_auth := {| username := "user"; password := "password" |};
     strfry_url := strfry_url;
     relay_id := relay_id;
     websocket_listen_addr := websocket_listen_addr;
     validation_config := validation_default;
     mempool_poll_interval := Duration_from_secs 2;
     max_client_connections := 1000;
     websocket_buffer_size := 100 |}.





(* ------------------------------------------------------------------ *)
(** ** The library's error types ([src/error.rs]) and [hex::FromHexError] *)

(** [crate::networks::Network]. *)
Inductive Network : Type := Regtest | Testnet4.

Inductive ConfigError : Type :=
| InvalidUrl (url : string)
| InvalidSocketAddr (addr : string)
| UnsupportedConfiguration (network : Network) (relay_id : N)
| InvalidAuth
| InvalidParameter (param : string).

Inductive BitcoinRpcError : Type :=
| RequestFailed (message : string)
| InvalidResponse
| ConnectionFailed (url : string)
| AuthenticationFailed
| BitcoinCore (code : Z) (message : string).

Inductive NostrError : Type :=
| NostrConnectionFailed (url : string)
| SendFailed
| InvalidEvent
| Disconnected
| SubscriptionFailed.

Inductive NetworkError : Type :=
| BindFailed (addr : SocketAddr)
| ClientConnectionFailed
| WebSocketHandshakeFailed
| NetTimeout
| ConnectionClosed
| MaxConnectionsExceeded.

(** [hex::FromHexError]. *)
Inductive FromHexError : Type :=
| InvalidHexCharacter (c : ascii) (index : nat)
| OddLength
| InvalidStringLength.

(** [RelayError]; an error of another crate is kept as its message. *)
Inductive RelayError : Type :=
| RConfig (e : ConfigError)
| RBitcoinRpc (e : BitcoinRpcError)
| RNostr (e : NostrError)
| RValidation (e : ValidationError)
| RNetwork (e : NetworkError)
| RIo (msg : string)
| RUrlParse (msg : string)
| RJson (msg : string)
| RHttp (msg : string)
| RWebSocket (msg : string)
| RBitcoin (msg : string)
| RHexDecode (e : FromHexError)
| RNostrKey (msg : string)
| RNostrEvent (msg : string)
| RNostrEventBuilder (msg : string)
| RAddrParse (msg : string)
| ROther (msg : string).

(** [impl From<anyhow::Error> for RelayError]. *)
Definition RelayError_from_anyhow (err : AnyError) : RelayError := ROther (error_msg err).

(** [crate::Result<T, E>]. *)
Inductive RResult (A E : Type) : Type :=
| ROk (a : A)
| RErr (e : E).
Arguments ROk {A E} a.
Arguments RErr {A E} e.

(** [hex::decode] with its error: odd length first, then the first
    non-hex digit, high digit before low digit. *)
Definition hex_val_at (c : ascii) (index : nat) : RResult Z FromHexError :=
  match hex_val c with
  | Some v => ROk v
  | None => RErr (InvalidHexCharacter c index)
  end.

Fixpoint hex_pairs_from (index : nat) (s : string) : RResult (list Z) FromHexError :=
  match s with
  | EmptyString => ROk []
  | String hi (String lo rest) =>
      match hex_val_at hi index with
      | RErr e => RErr e
      | ROk h =>
          match hex_val_at lo (S index) with
          | RErr e => RErr e
          | ROk l =>
              match hex_pairs_from (S (S index)) rest with
              | RErr e => RErr e
              | ROk bs => ROk ((16 * h + l)%Z :: bs)
              end
          end
      end
  | String _ EmptyString => RErr OddLength
  end.

Definition hex_decode_checked (s : string) : RResult (list Z) FromHexError :=
  if Nat.odd (String.length s) then RErr OddLength else hex_pairs_from 0 s.

(* ------------------------------------------------------------------ *)
(** ** Shared state, effects and the server monad *)

Inductive Level : Type := LInfo | LWarn | LError.

(** What the tasks do to the outside world and to the shared maps. *)
Inductive Action : Type :=
| ARpc (method : string) (params : list Value)     (** a JSON-RPC POST *)
| AValidate (tx_hex : string)                      (** [validator.validate] *)
| AUplinkSend (ev : Event)                         (** [strfry_sender.send] *)
| AChanSend (chan : nat) (ev : Event)              (** a client channel's [send] *)
| AClientInsert (client_id : string) (chan : nat)  (** [clients.insert] *)
| AClientRemove (client_id : string)               (** [clients.remove] *)
| ARemoteInsert (txid : string)                    (** [remote_transactions.insert] *)
| ASpawnOutbound (client_id : string)              (** the client's outbound task *)
| AAbortOutbound (client_id : string)              (** [broadcast_task.abort()] *)
| ASleep (d : Duration)                            (** [tokio::time::sleep] *)
| AWsConnect (url : string)                        (** [connect_async] *)
| AWsSend (frame : Value)                          (** a text frame to the bus *)
| ALog (lvl : Level) (what : string).              (** [tracing] *)

Record St : Type := mkSt {
  clients : gmap string nat;              (** client id -> its channel *)
  remote_transactions : gset string;
  next_chan : nat;                        (** fresh channel names *)
  history : list Action
}.

Inductive Res (A : Type) : Type :=
| Ok (a : A)
| Err (e : AnyError).
Arguments Ok {A} a.
Arguments Err {A} e.

Definition M (A : Type) : Type := St -> Res A * St.

Definition retM {A} (a : A) : M A := fun s => (Ok a, s).

Definition bindM {A B} (m : M A) (k : A -> M B) : M B :=
  fun s => match m s with
           | (Ok a, s') => k a s'
           | (Err e, s') => (Err e, s')
           end.

Global Instance M_ret : MRet M := @retM.
Global Instance M_bind : MBind M := fun A B k m => bindM m k.

(** [Err(..)] / [?]. *)
Definition fail {A} (e : AnyError) : M A := fun s => (Err e, s).

(** [match m { Ok(..) => .., Err(e) => .. }]: the error becomes a value. *)
Definition catch {A} (m : M A) : M (Res A) :=
  fun s => let '(r, s') := m s in (Ok r, s').

Definition getS : M St := fun s => (Ok s, s).

Definition emit (a : Action) : M unit :=
  fun s => (Ok tt, {| clients := clients s; remote_transactions := remote_transactions s;
                      next_chan := next_chan s; history := history s ++ [a] |}).

Definition log (lvl : Level) (what : string) : M unit := emit (ALog lvl what).

Definition insert_remote (txid : string) : M unit :=
  fun s => (Ok tt, {| clients := clients s;
                      remote_transactions := {[ txid ]} ∪ remote_transactions s;
                      next_chan := next_chan s;
                      history := history s ++ [ARemoteInsert txid] |}).

Definition insert_client (client_id : string) (chan : nat) : M unit :=
  fun s => (Ok tt, {| clients := <[ client_id := chan ]> (clients s);
                      remote_transactions := remote_transactions s;
                      next_chan := next_chan s;
                      history := history s ++ [AClientInsert client_id chan] |}).

Definition remove_client (client_id : string) : M unit :=
  fun s => (Ok tt, {| clients := delete client_id (clients s);
                      remote_transactions := remote_transactions s;
                      next_chan := next_chan s;
                      history := history s ++ [AClientRemove client_id] |}).

(** [broadcast::channel(..)]: a fresh channel. *)
Definition new_channel : M nat :=
  fun s => (Ok (next_chan s), {| clients := clients s;
                                 remote_transactions := remote_transactions s;
                                 next_chan := S (next_chan s);
                                 history := history s |}).

Fixpoint for_each {A} (f : A -> M unit) (l : list A) : M unit :=
  match l with
  | [] => mret tt
  | x :: rest => f x ;; for_each f rest
  end.

(** The result of the HTTP leg of a JSON-RPC call:
    [client.post(..).send().await?.json::<Value>().await?]. *)
Inductive HttpResult : Type :=
| HttpOk (response : Value)
| HttpErr (reqwest_error : string).

(** Inbound items of a client WebSocket ([ws_receiver.next()]). *)
Inductive WsItem : Type :=
| WsText (text : string)
| WsBinary
| WsPing
| WsClose
| WsError (e : string).

(** One outcome of the bus connection's [tokio::select!]. *)
Inductive SelectItem : Type :=
| SInbound (msg : option WsItem)     (** [ws_receiver.next()] *)
| SOutbox (ev : option Event).       (** [strfry_receiver.recv()] *)

(* ------------------------------------------------------------------ *)
(** ** The library's Bitcoin RPC client ([src/bitcoin_rpc.rs]) *)

Record BitcoinRpcClient : Type := mkBitcoinRpcClient {
  client_url : string;
  client_username : string;
  client_password : string
}.

Definition BitcoinRpcClient_new (url username password : string) : BitcoinRpcClient :=
  {| client_url := url; client_username := username; client_password := password |}.

Section RpcClient.

(** The POST to [client.url] with the client's basic auth:
    [.send().await?.json::<Value>().await?]. *)
Context (post : BitcoinRpcClient -> Value -> HttpResult).
(** [BlockHash::from_str], [BlockHash]'s [Display] and
    [bitcoin::consensus::deserialize::<Block>]; errors as their messages. *)
Context {BlockHash Block : Type}.
Context (block_hash_from_str : string -> RResult BlockHash string).
Context (block_hash_to_string : BlockHash -> string).
Context (deserialize_block : list Z -> RResult Block string).

(** [BitcoinRpcClient::rpc_call]. *)
Definition client_rpc_call (client : BitcoinRpcClient) (method : string) (params : Value)
  : RResult Value RelayError :=
  let request := VObject [("id", VNumber 1); ("jsonrpc", VString "2.0");
                          ("method", VString method); ("params", params)] in
  match post client request with
  | HttpErr e => RErr (RHttp e)
  | HttpOk response =>
      let result :=
        match value_get "result" response with
        | Some r => ROk r
        | None => RErr (RBitcoinRpc InvalidResponse)
        end in
      match value_get "error" response with
      | Some error =>
          if value_is_null error then result
          else RErr (RBitcoinRpc (RequestFailed ("RPC error: " +:+ value_to_string error)))
      | None => result
      end
  end.

(** [get_best_block_hash]. *)
Definition get_best_block_hash (client : BitcoinRpcClient) : RResult BlockHash RelayError :=
  match client_rpc_call client "getbestblockhash" (VArray []) with
  | RErr e => RErr e
  | ROk result =>
      match value_as_str result with
      | None => RErr (RBitcoinRpc InvalidResponse)
      | Some hash_str =>
          match block_hash_from_str hash_str with
          | ROk hash => ROk hash
          | RErr e => RErr (RBitcoinRpc (RequestFailed ("Failed to parse block hash: " +:+ e)))
          end
      end
  end.

(** [get_block]. *)
Definition get_block (client : BitcoinRpcClient) (block_hash : BlockHash)
  : RResult Block RelayError :=
  match client_rpc_call client "getblock"
          (VArray [VString (block_hash_to_string block_hash); VNumber 0]) with
  | RErr e => RErr e
  | ROk result =>
      match value_as_str result with
      | None => RErr (RBitcoinRpc InvalidResponse)
      | Some block_hex =>
          match hex_decode_checked block_hex with
          | RErr e => RErr (RHexDecode e)
          | ROk block_bytes =>
              match deserialize_block block_bytes with
              | ROk block => ROk block
              | RErr e => RErr (RBitcoinRpc (RequestFailed ("Failed to deserialize block: " +:+ e)))
              end
          end
      end
  end.

End RpcClient.

(* ------------------------------------------------------------------ *)
(** ** The library's high-level API ([BitcoinNostrRelay] in [src/lib.rs]) *)





(* ------------------------------------------------------------------ *)
(** ** The relay server ([src/relay/server.rs]) *)

Section Server.

(** The server's configuration. *)
Context (cfg : RelayConfig).

(** The Bitcoin node behind [config.bitcoin_rpc_url], over HTTP. *)
Context (http_post : list Action -> Value -> HttpResult).
(** [TransactionValidator::validate]. *)
Context (validate : list Action -> string -> ValidationResult).
(** [serde_json::from_str::<Value>] and [serde_json::from_value::<Event>]. *)
Context (json_parse : string -> option Value).
Context (event_of_value : Value -> option Event).
(** [Event] as a JSON value (in [["EVENT", event]] frames). *)
Context (event_to_value : Event -> Value).
(** The bitcoin crate: [deserialize::<Transaction>], [txid], [serialize]. *)
Context {Transaction : Type}.
Context (deserialize_tx : list Z -> option Transaction).
Context (tx_txid : Transaction -> string).
Context (serialize_tx : Transaction -> list Z).
Context (tx_version : Transaction -> Z).
Context (tx_input_len tx_output_len : Transaction -> nat).
(** [SystemTime::now()] in unix seconds. *)
Context (now_secs : list Action -> N).
(** [Url::parse], [connect_async] and [ws_sender.send] on the bus socket. *)
Context (url_parses : string -> bool).
Context (ws_connect_ok : list Action -> string -> bool).
Context (ws_send_ok : list Action -> Value -> bool).

Definition rpc_request_body (method : string) (params : list Value) : Value :=
  VObject [("id", VNumber 1); ("jsonrpc", VString "2.0");
           ("method", VString method); ("params", VArray params)].

(** The part shared by the server's three RPC helpers: POST, then
    [if let Some(error) = response.get("error") { if !error.is_null() { .. } }]. *)
Definition rpc_call (method : string) (params : list Value) : M Value :=
  emit (ARpc method params) ;;
  s ← getS;
  match http_post (history s) (rpc_request_body method params) with
  | HttpErr e => fail (anyhow e)
  | HttpOk response =>
      match value_get "error" response with
      | Some error =>
          if value_is_null error then mret response
          else fail (anyhow ("Bitcoin RPC error: " +:+ value_to_string error))
      | None => mret response
      end
  end.

(** [submit_to_bitcoin_node]. *)
Definition submit_to_bitcoin_node (tx_hex : string) : M string :=
  response ← rpc_call "sendrawtransaction" [VString tx_hex];
  match value_as_str (value_index "result" response) with
  | Some txid => mret txid
  | None => fail (anyhow "No txid in response")
  end.

(** [get_mempool_txids]. *)
Definition get_mempool_txids : M (list string) :=
  response ← rpc_call "getrawmempool" [];
  let arr := default [] (value_as_array (value_index "result" response)) in
  mret (map (fun v => default EmptyString (value_as_str v)) arr).

(** [get_raw_transaction]. *)
Definition get_raw_transaction (txid : string) : M string :=
  response ← rpc_call "getrawtransaction" [VString txid];
  mret (default EmptyString (value_as_str (value_index "result" response))).

(** [self.validator.validate(tx_hex).await]. *)
Definition validate_tx (tx_hex : string) : M ValidationResult :=
  emit (AValidate tx_hex) ;;
  s ← getS;
  mret (validate (history s) tx_hex).

(** [send_tx_response]; [json!] objects keep their keys sorted. *)
Definition tx_response_content (success : bool) (message txid : string) : string :=
  value_to_string (VObject [("message", VString message); ("success", VBool success);
                            ("txid", VString txid)]).

Definition tx_response_event (success : bool) (message txid : string) : Event :=
  to_event KIND_TX_RESPONSE (tx_response_content success message txid) [].

Definition send_tx_response (client_id : string) (success : bool) (message txid : string)
  : M unit :=
  let event := tx_response_event success message txid in
  s ← getS;
  match clients s !! client_id with
  | Some chan => emit (AChanSend chan event)
  | None => mret tt
  end.

(** [handle_submit_tx]. *)
Definition handle_submit_tx (event : Event) (client_id : string) : M unit :=
  log LInfo "received transaction via websocket" ;;
  let tx_hex := trim (content event) in
  v ← validate_tx tx_hex;
  match v with
  | ValErr (RecentlyProcessed _) =>
      send_tx_response client_id false "Transaction recently processed" EmptyString
  | ValErr e =>
      send_tx_response client_id false (validation_error_to_string e) EmptyString
  | ValOk =>
      match hex_decode tx_hex with
      | None =>
          log LError "failed to decode transaction hex" ;;
          send_tx_response client_id false "Invalid hex encoding" EmptyString
      | Some tx_bytes =>
          match deserialize_tx tx_bytes with
          | None =>
              log LError "failed to deserialize transaction" ;;
              send_tx_response client_id false "Invalid transaction format" EmptyString
          | Some tx =>
              let txid := tx_txid tx in
              log LInfo "decoded transaction" ;;
              r ← catch (submit_to_bitcoin_node tx_hex);
              match r with
              | Ok _ => send_tx_response client_id true "Transaction accepted" txid
              | Err e =>
                  log LError "failed to submit transaction to bitcoin node" ;;
                  send_tx_response client_id false (error_msg e) txid
              end
          end
      end
  end.

(** [handle_request_tx]: a no-op. *)
Definition handle_request_tx (event : Event) (client_id : string) : M unit :=
  log LInfo "transaction request".

(** [handle_event]. *)
Definition handle_event (event : Event) (client_id : string) : M unit :=
  if decide (kind event = KIND_SUBMIT_TX) then handle_submit_tx event client_id
  else if decide (kind event = KIND_REQUEST_TX) then handle_request_tx event client_id
  else log LWarn "unhandled event kind".

Definition json_error : AnyError := anyhow "JSON error".

(** [handle_nostr_message]. *)
Definition handle_nostr_message (message client_id : string) : M unit :=
  match json_parse message with
  | None => fail json_error
  | Some parsed =>
      match value_as_array parsed with
      | Some arr =>
          if decide (2 <= length arr) then
            let msg_type := default EmptyString (value_as_str (nth 0 arr VNull)) in
            if decide (msg_type = "EVENT") then
              match event_of_value (nth 1 arr VNull) with
              | None => fail json_error
              | Some event => handle_event event client_id
              end
            else if decide (msg_type = "REQ") then log LInfo "client subscribed"
            else mret tt
          else mret tt
      | None => mret tt
      end
  end.

(** The inbound leg of [handle_connection]:
    [while let Some(msg) = ws_receiver.next().await { match msg? { .. } }]. *)
Fixpoint inbound_loop (client_id : string) (items : list WsItem) : M unit :=
  match items with
  | [] => mret tt
  | WsError e :: _ => fail (anyhow e)
  | WsText text :: rest =>
      r ← catch (handle_nostr_message text client_id);
      match r with
      | Err _ => log LError "error handling nostr message"
      | Ok _ => mret tt
      end ;;
      inbound_loop client_id rest
  | WsClose :: _ => log LInfo "client disconnected"
  | _ :: rest => inbound_loop client_id rest
  end.

(** [handle_connection], from a completed WebSocket handshake; [client_id]
    is [peer_addr.to_string()] and [items] is what the socket yields. *)
Definition handle_connection (client_id : string) (items : list WsItem) : M unit :=
  chan ← new_channel;
  insert_client client_id chan ;;
  emit (ASpawnOutbound client_id) ;;
  inbound_loop client_id items ;;
  emit (AAbortOutbound client_id) ;;
  remove_client client_id.

(** The event built by [broadcast_transaction]. *)
Definition broadcast_content (tx : Transaction) (txid : string) : string :=
  value_to_string
    (VObject [("hex", VString (hex_encode (serialize_tx tx)));
              ("inputs", VNumber (Z.of_nat (tx_input_len tx)));
              ("outputs", VNumber (Z.of_nat (tx_output_len tx)));
              ("size", VNumber (Z.of_nat (length (serialize_tx tx))));
              ("txid", VString txid);
              ("version", VNumber (tx_version tx))]).

Definition broadcast_tags : list Tag :=
  [Hashtag "bitcoin"; Hashtag "transaction";
   Generic (TK_Custom "relay_id") [relay_id cfg]].

Definition mk_broadcast_event (tx : Transaction) (txid : string) : Event :=
  to_event KIND_TX_BROADCAST (broadcast_content tx txid) broadcast_tags.

(** [send_to_strfry]: the receiver lives as long as the server, so the
    unbounded send does not fail. *)
Definition send_to_strfry (event : Event) : M unit := emit (AUplinkSend event).

(** [broadcast_transaction]. *)
Definition broadcast_transaction (tx : Transaction) (txid : string) : M unit :=
  let event := mk_broadcast_event tx txid in
  send_to_strfry event ;;
  log LInfo "broadcasting transaction via nostr" ;;
  s ← getS;
  for_each (fun kv => emit (AChanSend kv.2 event)) (map_to_list (clients s)).

(** The body of [for txid in &current_txids] in [monitor_mempool]. *)
Definition monitor_txid (known : gset string) (txid : string) : M (gset string) :=
  if decide (txid ∈ known) then mret known
  else
    s ← getS;
    let is_remote := bool_decide (txid ∈ remote_transactions s) in
    (if is_remote then mret tt
     else
       raw ← catch (get_raw_transaction txid);
       match raw with
       | Err _ => mret tt
       | Ok raw_tx =>
           match hex_decode raw_tx with
           | None => fail (anyhow "hex decode error")
           | Some bytes =>
               match deserialize_tx bytes with
               | None => mret tt
               | Some tx =>
                   r ← catch (broadcast_transaction tx txid);
                   match r with
                   | Err _ => log LError "failed to broadcast transaction"
                   | Ok _ => mret tt
                   end
               end
           end
       end) ;;
    mret ({[ txid ]} ∪ known).

Fixpoint monitor_diff (known : gset string) (todo : list string) : M (gset string) :=
  match todo with
  | [] => mret known
  | txid :: rest => known' ← monitor_txid known txid; monitor_diff known' rest
  end.

(** The diff step: the [for] loop, then
    [known_txids.retain(|txid| current_txids.contains(txid))]. *)
Definition mempool_diff (known : gset string) (current_txids : list string) : M (gset string) :=
  known' ← monitor_diff known current_txids;
  mret (filter (fun t => t ∈ current_txids) known').

(** One poll of the [loop] in [monitor_mempool], before its sleep. *)
Definition monitor_poll (known : gset string) : M (gset string) :=
  r ← catch get_mempool_txids;
  match r with
  | Ok current_txids => mempool_diff known current_txids
  | Err _ =>
      log LError "failed to get mempool" ;;
      mret known
  end.

(** The infinite [loop], run for [fuel] polls; [Ok tt] at the end of the
    fuel means the loop is still running. *)
Fixpoint monitor_loop (fuel : nat) (known : gset string) : M unit :=
  match fuel with
  | O => mret tt
  | S f =>
      known' ← monitor_poll known;
      emit (ASleep (mempool_poll_interval cfg)) ;;
      monitor_loop f known'
  end.

(** [monitor_mempool]. *)
Definition monitor_mempool (fuel : nat) : M unit :=
  r ← catch get_mempool_txids;
  known ← match r with
          | Ok txids => log LInfo "initialized with mempool" ;; mret (list_to_set txids)
          | Err _ => log LWarn "failed to get initial mempool state" ;; mret ∅
          end;
  log LInfo "starting mempool monitoring" ;;
  monitor_loop fuel known.

(** The self-origin scan of [handle_remote_transaction]: a [Generic] tag of
    kind [Custom("relay_id")] whose first value is our [relay_id]. *)
Fixpoint from_this_relay (ts : list Tag) : bool :=
  match ts with
  | [] => false
  | Generic (TK_Custom k) (v :: _) :: rest =>
      if decide (k = "relay_id") then
        if decide (v = relay_id cfg) then true else from_this_relay rest
      else from_this_relay rest
  | _ :: rest => from_this_relay rest
  end.

Definition field_str (key : string) (v : Value) : option string :=
  value_get key v ≫= value_as_str.

(** The last step of [handle_remote_transaction]: submit, and warn unless
    the error message says the node already has the transaction. *)
Definition submit_remote_tx (tx_hex : string) : M unit :=
  r ← catch (submit_to_bitcoin_node tx_hex);
  match r with
  | Ok _ => log LInfo "received transaction via nostr"
  | Err e =>
      if negb (contains (error_msg e) "already in mempool")
         && negb (contains (error_msg e) "already exists")
      then log LWarn "failed to submit remote transaction"
      else mret tt
  end.

(** [handle_remote_transaction]. *)
Definition handle_remote_transaction (event : Event) : M unit :=
  if from_this_relay (tags event) then mret tt
  else
    match json_parse (content event) with
    | None => fail json_error
    | Some tx_data =>
        match field_str "hex" tx_data with
        | None => mret tt
        | Some tx_hex =>
            match field_str "txid" tx_data with
            | None => mret tt
            | Some txid =>
                insert_remote txid ;;
                v ← validate_tx tx_hex;
                match v with
                | ValErr (RecentlyProcessed _) => mret tt
                | ValErr _ => log LWarn "transaction failed validation"
                | ValOk => submit_remote_tx tx_hex
                end
            end
        end
    end.

(** [handle_strfry_message]. *)
Definition handle_strfry_message (message : string) : M unit :=
  match json_parse message with
  | None => fail json_error
  | Some parsed =>
      match value_as_array parsed with
      | Some arr =>
          if bool_decide (3 <= length arr) && bool_decide (value_as_str (nth 0 arr VNull) = Some "EVENT")
          then
            match event_of_value (nth 2 arr VNull) with
            | None => fail json_error
            | Some event =>
                if decide (kind event = KIND_TX_BROADCAST)
                then handle_remote_transaction event else mret tt
            end
          else mret tt
      | None => mret tt
      end
  end.

(** The subscription frame of [try_connect_to_strfry]. *)
Definition subscription (current_timestamp : N) : Value :=
  VArray [VString "REQ"; VString ("tx_relay_" +:+ relay_id cfg);
          VObject [("#t", VArray [VString "bitcoin"; VString "transaction"]);
                   ("kinds", VArray [VNumber (Z.of_N KIND_TX_BROADCAST)]);
                   ("since", VNumber (Z.of_N current_timestamp))]].

Definition ws_send (frame : Value) : M bool :=
  emit (AWsSend frame) ;;
  s ← getS;
  mret (ws_send_ok (history s) frame).

(** The [loop { tokio::select! { .. } }] of [try_connect_to_strfry], over
    the outcomes the select produces. *)
Fixpoint select_loop (items : list SelectItem) : M unit :=
  match items with
  | [] => mret tt
  | SInbound (Some (WsText text)) :: rest =>
      r ← catch (handle_strfry_message text);
      match r with
      | Err _ => log LError "error handling strfry message"
      | Ok _ => mret tt
      end ;;
      select_loop rest
  | SInbound (Some WsClose) :: _ => log LInfo "strfry connection closed"
  | SInbound (Some (WsError _)) :: _ => log LError "websocket error"
  | SInbound None :: _ => mret tt
  | SInbound (Some _) :: rest => select_loop rest
  | SOutbox (Some event) :: rest =>
      sent ← ws_send (VArray [VString "EVENT"; event_to_value event]);
      if negb sent then log LError "failed to send event to strfry" else select_loop rest
  | SOutbox None :: _ => mret tt
  end.

(** [try_connect_to_strfry]. *)
Definition try_connect_to_strfry (items : list SelectItem) : M unit :=
  let url := strfry_url cfg in
  if negb (url_parses url) then fail (anyhow "URL parse error")
  else
    emit (AWsConnect url) ;;
    s ← getS;
    if negb (ws_connect_ok (history s) url) then fail (anyhow "WebSocket connect error")
    else
      log LInfo "connected to strfry relay" ;;
      s ← getS;
      let current_timestamp := now_secs (history s) in
      sent ← ws_send (subscription current_timestamp);
      if negb sent then fail (anyhow "WebSocket send error")
      else
        log LInfo "subscribed to transaction broadcasts" ;;
        select_loop items.



(** [NostrClient::send_event] ([src/nostr.rs]) over its WebSocket: the
    frame, then at most one inbound item [reply] ([ws.next().await]). *)
Definition nostr_send_event (event : Event) (reply : option WsItem) : M unit :=
  let message := VArray [VString "EVENT"; event_to_value event] in
  log LInfo "sending nostr event" ;;
  sent ← ws_send message;
  if negb sent then fail (anyhow "WebSocket send error")
  else
    match reply with
    | Some (WsError e) => fail (anyhow e)
    | Some (WsText _) => log LInfo "nostr relay response"
    | Some WsBinary => log LWarn "received binary message from nostr relay"
    | Some WsClose => log LWarn "nostr relay closed connection"
    | _ => mret tt
    end.

(** The event of [NostrClient::send_tx_event]: [Kind::Ephemeral(20001)]. *)
Definition tx_event (content block_hash : string) : Event :=
  to_event 20001 content
    [Hashtag "bitcoin"; Hashtag "transaction"; Generic (TK_Custom "block") [block_hash]].

Definition send_tx_event (content block_hash : string) (reply : option WsItem) : M unit :=
  nostr_send_event (tx_event content block_hash) reply.

(** [BitcoinNostrRelay::broadcast_transaction] ([src/lib.rs]);
    [has_nostr_client] is [self.nostr_client.is_some()]. *)
Definition relay_broadcast_transaction (has_nostr_client : bool) (tx_hex block_hash : string)
    (reply : option WsItem) : M (RResult unit RelayError) :=
  if has_nostr_client then
    r ← catch (send_tx_event tx_hex block_hash reply);
    match r with
    | Ok _ => mret (ROk tt)
    | Err e => mret (RErr (RelayError_from_anyhow e))
    end
  else mret (RErr (RNostr Disconnected)).

(* ------------------------------------------------------------------ *)
(** ** Monad reasoning *)

Lemma bind_ok {A B} (m : M A) (k : A -> M B) s a s' :
  m s = (Ok a, s') -> (m ≫= k) s = k a s'.
Proof. intros H. unfold mbind, M_bind, bindM. rewrite H. reflexivity. Qed.

Lemma bind_err {A B} (m : M A) (k : A -> M B) s e s' :
  m s = (Err e, s') -> (m ≫= k) s = (Err e, s').
Proof. intros H. unfold mbind, M_bind, bindM. rewrite H. reflexivity. Qed.

(** [hist_inv I P m]: from a state satisfying [I], [m] ends in a state
    satisfying [I] and only appends actions satisfying [P] to the history. *)
Definition hist_inv (I : St -> Prop) (P : Action -> Prop) {A} (m : M A) : Prop :=
  forall s, I s -> I (m s).2 /\
    exists new, history (m s).2 = history s ++ new /\ Forall P new.

(** [I] depends only on the maps, not on the history. *)
Definition maps_only (I : St -> Prop) : Prop :=
  forall s a, I s -> I (emit a s).2.

Lemma hist_ret I P {A} (a : A) : hist_inv I P (mret a).
Proof. intros s HI. split; [done|]. exists []. by rewrite app_nil_r. Qed.

Lemma hist_fail I P {A} e : hist_inv I P (fail (A:=A) e).
Proof. intros s HI. split; [done|]. exists []. by rewrite app_nil_r. Qed.

Lemma hist_emit I P a : maps_only I -> P a -> hist_inv I P (emit a).
Proof. intros HI Pa s Hs. split; [by apply HI|]. exists [a]. split; [done|by constructor]. Qed.

Lemma hist_bind I P {A B} (m : M A) (k : A -> M B) :
  hist_inv I P m -> (forall a, hist_inv I P (k a)) -> hist_inv I P (m ≫= k).
Proof.
  intros Hm Hk s Hs. unfold mbind, M_bind, bindM.
  destruct (Hm s Hs) as [Hs1 [n1 [Hh1 HP1]]].
  destruct (m s) as [[a|e] s1]; simpl in *.
  - destruct (Hk a s1 Hs1) as [Hs2 [n2 [Hh2 HP2]]]. split; [done|].
    exists (n1 ++ n2). rewrite Hh2, Hh1, app_assoc. split; [done|].
    by apply Forall_app.
  - split; [done|]. by exists n1.
Qed.

Lemma hist_getS_bind I P {B} (k : St -> M B) :
  (forall s0, I s0 -> hist_inv I P (k s0)) -> hist_inv I P (getS ≫= k).
Proof. intros Hk s Hs. exact (Hk s Hs s Hs). Qed.

Lemma hist_catch I P {A} (m : M A) : hist_inv I P m -> hist_inv I P (catch m).
Proof.
  intros Hm s Hs. unfold catch. destruct (Hm s Hs) as [H1 H2].
  destruct (m s) as [r s1]. by split.
Qed.

Lemma hist_for_each I P {A} (f : A -> M unit) (l : list A) :
  (forall x, x ∈ l -> hist_inv I P (f x)) -> hist_inv I P (for_each f l).
Proof.
  induction l as [|x l IH]; intros Hf; simpl.
  - apply hist_ret.
  - apply hist_bind; [apply Hf; left|intros _; apply IH].
    intros y Hy. apply Hf. by right.
Qed.

Lemma hist_weaken I P Q {A} (m : M A) :
  (forall a, P a -> Q a) -> hist_inv I P m -> hist_inv I Q m.
Proof.
  intros HPQ Hm s Hs. destruct (Hm s Hs) as [H1 [n [Hn HP]]]. split; [done|].
  exists n. split; [done|]. by eapply Forall_impl.
Qed.

Ltac hist_step :=
  match goal with
  | |- hist_inv _ _ (getS ≫= _) => apply hist_getS_bind; intros ? ?
  | |- hist_inv _ _ (_ ≫= _) => apply hist_bind; [|intros ?]
  | |- hist_inv _ _ (mret _) => apply hist_ret
  | |- hist_inv _ _ (fail _) => apply hist_fail
  | |- hist_inv _ _ (emit _) => apply hist_emit; [assumption|]
  | |- hist_inv _ _ (log _ _) => apply hist_emit; [assumption|]
  | |- hist_inv _ _ (catch _) => apply hist_catch
  | |- hist_inv _ _ (for_each _ _) => apply hist_for_each; intros ? ?
  | |- hist_inv _ _ (match ?x with _ => _ end) => destruct x
  | |- hist_inv _ _ (if ?b then _ else _) => destruct b
  end.

Lemma rpc_call_hist I P method params :
  maps_only I -> P (ARpc method params) -> hist_inv I P (rpc_call method params).
Proof.
  intros HI HP. unfold rpc_call. repeat hist_step; done.
Qed.

Lemma submit_to_bitcoin_node_hist I P tx_hex :
  maps_only I -> P (ARpc "sendrawtransaction" [VString tx_hex]) ->
  hist_inv I P (submit_to_bitcoin_node tx_hex).
Proof.
  intros HI HP. unfold submit_to_bitcoin_node.
  apply hist_bind; [by apply rpc_call_hist|intros ?]. repeat hist_step.
Qed.

Lemma get_mempool_txids_hist I P :
  maps_only I -> P (ARpc "getrawmempool" []) -> hist_inv I P get_mempool_txids.
Proof.
  intros HI HP. unfold get_mempool_txids.
  apply hist_bind; [by apply rpc_call_hist|intros ?]. repeat hist_step.
Qed.

Lemma get_raw_transaction_hist I P txid :
  maps_only I -> P (ARpc "getrawtransaction" [VString txid]) ->
  hist_inv I P (get_raw_transaction txid).
Proof.
  intros HI HP. unfold get_raw_transaction.
  apply hist_bind; [by apply rpc_call_hist|intros ?]. repeat hist_step.
Qed.

Lemma validate_tx_hist I P tx_hex :
  maps_only I -> P (AValidate tx_hex) -> hist_inv I P (validate_tx tx_hex).
Proof. intros HI HP. unfold validate_tx. repeat hist_step; done. Qed.

(** The event an action publishes to the bus or to a client, if any. *)
Definition publishes (a : Action) : option Event :=
  match a with
  | AUplinkSend ev => Some ev
  | AChanSend _ ev => Some ev
  | _ => None
  end.

(** Every event [a] publishes is a [TX_BROADCAST] built for a txid outside [R]. *)
Definition published_outside (R : gset string) (a : Action) : Prop :=
  forall ev, publishes a = Some ev ->
    exists tx t, ev = mk_broadcast_event tx t /\ t ∉ R.

Lemma maps_only_remote (R : gset string) :
  maps_only (fun s => remote_transactions s = R).
Proof. intros s a H. exact H. Qed.

Lemma maps_only_True : maps_only (fun _ => True).
Proof. done. Qed.

Lemma broadcast_transaction_hist I R tx txid :
  maps_only I -> txid ∉ R ->
  hist_inv I (published_outside R) (broadcast_transaction tx txid).
Proof.
  intros HI Ht. unfold broadcast_transaction, send_to_strfry, log.
  repeat hist_step; intros ev [= <-]; eauto.
Qed.

Lemma monitor_txid_hist R known txid :
  hist_inv (fun s => remote_transactions s = R) (published_outside R)
    (monitor_txid known txid).
Proof.
  pose proof (maps_only_remote R) as HI.
  unfold monitor_txid. destruct (decide (txid ∈ known)); [apply hist_ret|].
  apply hist_getS_bind. intros s0 Hs0.
  destruct (bool_decide (txid ∈ remote_transactions s0)) eqn:Hr.
  - repeat hist_step.
  - apply bool_decide_eq_false in Hr. rewrite Hs0 in Hr.
    apply hist_bind; [|intros; apply hist_ret].
    apply hist_bind.
    + apply hist_catch, get_raw_transaction_hist; [done|by intros ev ?].
    + intros [raw_tx|e]; [|apply hist_ret].
      destruct (hex_decode raw_tx); [|apply hist_fail].
      destruct (deserialize_tx _); [|apply hist_ret].
      apply hist_bind.
      * by apply hist_catch, broadcast_transaction_hist.
      * intros []; [apply hist_ret|apply hist_emit; [done|by intros ev ?]].
Qed.

Lemma monitor_diff_hist R known todo :
  hist_inv (fun s => remote_transactions s = R) (published_outside R)
    (monitor_diff known todo).
Proof.
  revert known. induction todo as [|txid rest IH]; intros known; simpl.
  - apply hist_ret.
  - apply hist_bind; [apply monitor_txid_hist|intros; apply IH].
Qed.

Lemma mempool_diff_hist R known current :
  hist_inv (fun s => remote_transactions s = R) (published_outside R)
    (mempool_diff known current).
Proof.
  unfold mempool_diff. apply hist_bind; [apply monitor_diff_hist|intros; apply hist_ret].
Qed.

Lemma then_ret_ok {A B} (m : M A) (x y : B) s :
  ((m ≫= fun _ => mret x) s).1 = Ok y -> y = x.
Proof.
  unfold mbind, M_bind, bindM. destruct (m s) as [[a|e] s']; simpl; congruence.
Qed.

Lemma monitor_txid_result known txid s known' :
  (monitor_txid known txid s).1 = Ok known' -> {[ txid ]} ∪ known ⊆ known'.
Proof.
  unfold monitor_txid. destruct (decide (txid ∈ known)).
  - intros [= <-]. set_solver.
  - unfold mbind at 1, M_bind at 1, bindM at 1. simpl.
    intros H. apply then_ret_ok in H. subst. set_solver.
Qed.

Lemma monitor_poll_hist R known :
  hist_inv (fun s => remote_transactions s = R) (published_outside R) (monitor_poll known).
Proof.
  pose proof (maps_only_remote R) as HI. unfold monitor_poll.
  apply hist_bind.
  - apply hist_catch, get_mempool_txids_hist; [done|by intros ev ?].
  - intros [current|e]; [apply mempool_diff_hist|].
    apply hist_bind; [apply hist_emit; [done|by intros ev ?]|intros; apply hist_ret].
Qed.

Lemma monitor_loop_hist R fuel known :
  hist_inv (fun s => remote_transactions s = R) (published_outside R) (monitor_loop fuel known).
Proof.
  pose proof (maps_only_remote R) as HI.
  revert known. induction fuel as [|f IH]; intros known; simpl; [apply hist_ret|].
  apply hist_bind; [apply monitor_poll_hist|intros known'].
  apply hist_bind; [apply hist_emit; [done|by intros ev ?]|intros; apply IH].
Qed.

Lemma monitor_mempool_hist R fuel :
  hist_inv (fun s => remote_transactions s = R) (published_outside R) (monitor_mempool fuel).
Proof.
  pose proof (maps_only_remote R) as HI. unfold monitor_mempool, log.
  apply hist_bind.
  - apply hist_catch, get_mempool_txids_hist; [done|by intros ev ?].
  - intros r. apply hist_bind.
    + destruct r; repeat hist_step; by intros ev ?.
    + intros known. apply hist_bind; [apply hist_emit; [done|by intros ev ?]|].
      intros _. apply monitor_loop_hist.
Qed.

Lemma monitor_diff_result known todo s known' :
  (monitor_diff known todo s).1 = Ok known' -> known ∪ list_to_set todo ⊆ known'.
Proof.
  revert known s. induction todo as [|txid rest IH]; intros known s; simpl.
  - intros [= <-]. set_solver.
  - unfold mbind at 1, M_bind at 1, bindM at 1.
    destruct (monitor_txid known txid s) as [[k1|e] s1] eqn:Hm; simpl; [|discriminate].
    intros H. apply IH in H.
    assert (Hk1 : {[ txid ]} ∪ known ⊆ k1) by (apply (monitor_txid_result _ _ s); by rewrite Hm).
    set_solver.
Qed.

Lemma submit_remote_tx_hist I P tx_hex :
  maps_only I -> P (ARpc "sendrawtransaction" [VString tx_hex]) ->
  (forall lvl what, P (ALog lvl what)) -> hist_inv I P (submit_remote_tx tx_hex).
Proof.
  intros HI HP HL. unfold submit_remote_tx.
  apply hist_bind; [apply hist_catch, submit_to_bitcoin_node_hist; auto|intros r].
  repeat hist_step; auto.
Qed.

Lemma handle_remote_transaction_insert_first (event : Event) (s0 : St) :
  exists new,
    history (handle_remote_transaction event s0).2 = history s0 ++ new /\
    forall ps, ARpc "sendrawtransaction" ps ∈ new ->
      exists txid rest, new = ARemoteInsert txid :: rest /\
        txid ∈ remote_transactions (handle_remote_transaction event s0).2.
Proof.
  unfold handle_remote_transaction.
  destruct (from_this_relay (tags event)).
  { exists []. split; [by rewrite app_nil_r|]. intros ? Hin. by apply elem_of_nil in Hin. }
  destruct (json_parse (content event)) as [tx_data|];
    [|exists []; split; [by rewrite app_nil_r|]; intros ? Hin; by apply elem_of_nil in Hin].
  destruct (field_str "hex" tx_data) as [tx_hex|];
    [|exists []; split; [by rewrite app_nil_r|]; intros ? Hin; by apply elem_of_nil in Hin].
  destruct (field_str "txid" tx_data) as [txid|];
    [|exists []; split; [by rewrite app_nil_r|]; intros ? Hin; by apply elem_of_nil in Hin].
  match goal with
  | |- context [ (insert_remote txid ≫= fun _ => ?k) s0 ] =>
      set (cont := k)
  end.
  assert (HI : maps_only (fun s => txid ∈ remote_transactions s)) by (intros ??; done).
  assert (Hk : hist_inv (fun s => txid ∈ remote_transactions s) (fun _ => True) cont).
  { subst cont. apply hist_bind.
    - apply validate_tx_hist; done.
    - intros v. repeat hist_step; try done.
      by apply submit_remote_tx_hist. }
  unfold mbind at 1, M_bind at 1, bindM at 1. simpl.
  set (s1 := {| clients := clients s0; remote_transactions := {[ txid ]} ∪ remote_transactions s0;
                next_chan := next_chan s0; history := history s0 ++ [ARemoteInsert txid] |}).
  destruct (Hk s1) as [Hin [n [Hn _]]]; [subst s1; simpl; set_solver|].
  exists (ARemoteInsert txid :: n). split.
  - rewrite Hn. subst s1. simpl. by rewrite <- app_assoc.
  - intros ps _. by exists txid, n.
Qed.

(** The sends on client channels, in order. *)
Definition chan_sends (l : list Action) : list (nat * Event) :=
  omap (fun a => match a with AChanSend ch ev => Some (ch, ev) | _ => None end) l.

(** What [send_tx_response] delivers from state [s]: the event, on the
    channel of [client_id] if that client is connected. *)
Definition reply_to (s : St) (client_id : string) (ev : Event) : list (nat * Event) :=
  match clients s !! client_id with
  | Some ch => [(ch, ev)]
  | None => []
  end.

Definition not_chan_send (a : Action) : Prop :=
  match a with AChanSend _ _ => False | _ => True end.

Lemma chan_sends_app l1 l2 : chan_sends (l1 ++ l2) = chan_sends l1 ++ chan_sends l2.
Proof. unfold chan_sends. by rewrite omap_app. Qed.

Lemma chan_sends_quiet l new :
  Forall not_chan_send new -> chan_sends (l ++ new) = chan_sends l.
Proof.
  intros Hq. rewrite chan_sends_app.
  assert (chan_sends new = []) as ->; [|by rewrite app_nil_r].
  induction Hq as [|a new Ha _ IH]; [done|].
  destruct a; simpl in *; done.
Qed.

Lemma send_tx_response_spec client_id success message txid s :
  (send_tx_response client_id success message txid s).1 = Ok tt /\
  clients (send_tx_response client_id success message txid s).2 = clients s /\
  chan_sends (history (send_tx_response client_id success message txid s).2)
    = chan_sends (history s) ++
      reply_to s client_id (tx_response_event success message txid).
Proof.
  unfold send_tx_response, reply_to, mbind, M_bind, bindM, getS. simpl.
  destruct (clients s !! client_id); simpl; (split; [done|split; [done|]]).
  - by rewrite chan_sends_app.
  - by rewrite app_nil_r.
Qed.

Lemma submit_quiet tx_hex C :
  hist_inv (fun s => clients s = C) not_chan_send (submit_to_bitcoin_node tx_hex).
Proof. apply submit_to_bitcoin_node_hist; [by intros ??|done]. Qed.

(** Every frame [a] sends to the bus is an [["EVENT", event]] frame. *)
Definition event_frame_only (a : Action) : Prop :=
  match a with
  | AWsSend f => exists ev, f = VArray [VString "EVENT"; event_to_value ev]
  | _ => True
  end.

Lemma hist_insert_remote P txid :
  P (ARemoteInsert txid) -> hist_inv (fun _ => True) P (insert_remote txid).
Proof. intros HP s _. split; [done|]. exists [ARemoteInsert txid]. split; [done|by constructor]. Qed.

Ltac hist_auto :=
  repeat first [ hist_step
               | apply submit_remote_tx_hist; [assumption| |]
               | apply submit_to_bitcoin_node_hist; [assumption|]
               | apply validate_tx_hist; [assumption|]
               | apply hist_insert_remote ];
  try done.

Lemma handle_remote_transaction_frames event :
  hist_inv (fun _ => True) event_frame_only (handle_remote_transaction event).
Proof.
  pose proof maps_only_True as HI. unfold handle_remote_transaction. hist_auto.
Qed.

Lemma handle_strfry_message_frames message :
  hist_inv (fun _ => True) event_frame_only (handle_strfry_message message).
Proof.
  pose proof maps_only_True as HI. unfold handle_strfry_message.
  repeat first [ hist_step | apply handle_remote_transaction_frames ].
Qed.

Lemma select_loop_frames items :
  hist_inv (fun _ => True) event_frame_only (select_loop items).
Proof.
  pose proof maps_only_True as HI.
  induction items as [|[[[text| | | |e]|]|[ev|]] rest IH]; simpl; hist_auto.
  - apply handle_strfry_message_frames.
  - unfold ws_send. hist_auto. by exists ev.
Qed.

(* ------------------------------------------------------------------ *)
(** ** Claims *)

(** C9: [RelayConfig::new] sets the poll interval to 2 s, the maximum
    number of client connections to 1000 and the per-client buffer to 100,
    whatever the required parameters. *)
Theorem RelayConfig_new_defaults (validation_default : ValidationConfig)
    (rpc_url bus_url rid : string) (addr : SocketAddr) :
  mempool_poll_interval (RelayConfig_new validation_default rpc_url bus_url rid addr)
    = Duration_from_secs 2 /\
  max_client_connections (RelayConfig_new validation_default rpc_url bus_url rid addr) = 1000 /\
  websocket_buffer_size (RelayConfig_new validation_default rpc_url bus_url rid addr) = 100.
Proof. repeat split. Qed.

(** C1: a bus event carrying a tag of custom kind ["relay_id"] whose first
    value is our [relay_id] is dropped: [handle_remote_transaction] returns
    [Ok] and leaves the state as it was, so no RPC call, no validation and
    no change to [remote_transactions]. *)
Theorem handle_remote_transaction_self_origin (event : Event) (vs : list string) (s : St) :
  Generic (TK_Custom "relay_id") (relay_id cfg :: vs) ∈ tags event ->
  handle_remote_transaction event s = (Ok tt, s).
Proof.
  intros Hin. unfold handle_remote_transaction.
  assert (Hself : from_this_relay (tags event) = true).
  { induction (tags event) as [|t ts IH]; [by apply elem_of_nil in Hin|].
    apply elem_of_cons in Hin as [<-|Hin].
    - simpl. by rewrite decide_True.
    - simpl. destruct t as [|[k|k] [|v vs']|]; try (by apply IH).
      destruct (decide (k = "relay_id")); [|by apply IH].
      destruct (decide (v = relay_id cfg)); [done|by apply IH]. }
  rewrite Hself. reflexivity.
Qed.

(** C10: [get_mempool_txids] fails only when the HTTP leg fails or the
    response has a non-null ["error"]; otherwise it returns [Ok]: a missing
    or non-array ["result"] gives the empty list and a non-string element
    gives the empty string. *)
Theorem get_mempool_txids_total (s : St) :
  let h := history s ++ [ARpc "getrawmempool" []] in
  let body := rpc_request_body "getrawmempool" [] in
  (forall response,
     http_post h body = HttpOk response ->
     value_get "error" response = None \/ value_get "error" response = Some VNull ->
     fst (get_mempool_txids s)
       = Ok (map (fun v => match v with VString t => t | _ => EmptyString end)
                 (match value_get "result" response with
                  | Some (VArray xs) => xs
                  | _ => []
                  end))) /\
  (forall e,
     fst (get_mempool_txids s) = Err e ->
     (exists msg, http_post h body = HttpErr msg) \/
     (exists response err, http_post h body = HttpOk response /\
        value_get "error" response = Some err /\ err <> VNull)).
Proof.
  cbn zeta. unfold get_mempool_txids, rpc_call, mbind, M_bind, bindM, emit, getS. cbn.
  split.
  - intros response Hpost Herr. rewrite Hpost.
    assert (Hres : default [] (value_as_array (value_index "result" response))
                   = match value_get "result" response with
                     | Some (VArray xs) => xs | _ => [] end).
    { unfold value_index. destruct (value_get "result" response) as [[]|]; reflexivity. }
    destruct Herr as [-> | ->]; cbn; rewrite Hres;
      f_equal; apply map_ext; intros [] ; reflexivity.
  - intros e. destruct (http_post _ _) as [response|msg] eqn:Hpost.
    + destruct (value_get "error" response) as [err|] eqn:Herr; cbn.
      * destruct (value_is_null err) eqn:Hnull; cbn; [discriminate|].
        intros _. right. exists response, err. repeat split; [done|].
        intros ->. discriminate.
      * discriminate.
    + intros _. left. by exists msg.
Qed.

(** C2: a txid [t] already in [remote_transactions] when the diff step runs
    is never published: every event the diff step sends to the uplink or to
    a client is the [TX_BROADCAST] of another txid outside the set, and when
    [t] is in the mempool it ends up in [known_txids]. The remote handler
    inserts the txid into [remote_transactions] as its first action, so
    before any [sendrawtransaction] call. *)
Theorem mempool_diff_skips_remote (known : gset string) (current_txids : list string)
    (s : St) (t : string) :
  t ∈ remote_transactions s ->
  (exists new,
     history (mempool_diff known current_txids s).2 = history s ++ new /\
     forall a ev, a ∈ new -> publishes a = Some ev ->
       exists tx t', ev = mk_broadcast_event tx t' /\ t' <> t /\
                     t' ∉ remote_transactions s) /\
  (t ∈ current_txids -> forall known',
     (mempool_diff known current_txids s).1 = Ok known' -> t ∈ known') /\
  (forall (event : Event) (s0 : St),
     exists new,
       history (handle_remote_transaction event s0).2 = history s0 ++ new /\
       forall ps, ARpc "sendrawtransaction" ps ∈ new ->
         exists txid rest, new = ARemoteInsert txid :: rest /\
           txid ∈ remote_transactions (handle_remote_transaction event s0).2).
Proof.
  intros Ht. split; [|split].
  - destruct (mempool_diff_hist (remote_transactions s) known current_txids s eq_refl)
      as [_ [new [Hnew HP]]].
    exists new. split; [done|]. intros a ev Ha Hev.
    rewrite Forall_forall in HP.
    destruct (HP a Ha ev Hev) as (tx & t' & -> & Ht').
    exists tx, t'. repeat split; [|done]. intros ->. contradiction.
  - intros Hcur known' Hres. unfold mempool_diff in Hres.
    unfold mbind, M_bind, bindM in Hres.
    destruct (monitor_diff known current_txids s) as [[k1|e] s1] eqn:Hm; simpl in Hres;
      [|discriminate].
    injection Hres as <-.
    assert (Hk1 : known ∪ list_to_set current_txids ⊆ k1).
    { apply (monitor_diff_result _ _ s). by rewrite Hm. }
    apply elem_of_filter. split; [done|].
    apply Hk1. apply elem_of_union_r. by apply elem_of_list_to_set.
  - intros event s0. apply handle_remote_transaction_insert_first.
Qed.

(** C3: [handle_submit_tx] always returns [Ok] and sends exactly one
    [TX_RESPONSE] to the originating client's channel (none if that client
    is gone): "Transaction recently processed" with txid "" when the
    validator answers [RecentlyProcessed]; the error's message with txid ""
    for any other validation error; "Invalid hex encoding" or "Invalid
    transaction format" with txid "" when decoding or parsing fails;
    success with "Transaction accepted" and the computed txid when
    [sendrawtransaction] succeeds, and failure with the error's message and
    that txid when it fails. *)
Theorem handle_submit_tx_replies (event : Event) (client_id : string) (s : St) :
  let tx_hex := trim (content event) in
  let h_val := history s ++ [ALog LInfo "received transaction via websocket"; AValidate tx_hex] in
  let s_sub := {| clients := clients s; remote_transactions := remote_transactions s;
                  next_chan := next_chan s;
                  history := h_val ++ [ALog LInfo "decoded transaction"] |} in
  let r := handle_submit_tx event client_id s in
  let replies success message txid :=
    chan_sends (history r.2)
      = chan_sends (history s) ++ reply_to s client_id (tx_response_event success message txid) in
  r.1 = Ok tt /\
  (forall txid, validate h_val tx_hex = ValErr (RecentlyProcessed txid) ->
     replies false "Transaction recently processed" EmptyString) /\
  (forall e, validate h_val tx_hex = ValErr e -> (forall txid, e <> RecentlyProcessed txid) ->
     replies false (validation_error_to_string e) EmptyString) /\
  (validate h_val tx_hex = ValOk -> hex_decode tx_hex = None ->
     replies false "Invalid hex encoding" EmptyString) /\
  (forall bytes, validate h_val tx_hex = ValOk -> hex_decode tx_hex = Some bytes ->
     deserialize_tx bytes = None ->
     replies false "Invalid transaction format" EmptyString) /\
  (forall bytes tx, validate h_val tx_hex = ValOk -> hex_decode tx_hex = Some bytes ->
     deserialize_tx bytes = Some tx ->
     (forall txid, (submit_to_bitcoin_node tx_hex s_sub).1 = Ok txid ->
        replies true "Transaction accepted" (tx_txid tx)) /\
     (forall e, (submit_to_bitcoin_node tx_hex s_sub).1 = Err e ->
        replies false (error_msg e) (tx_txid tx))).
Proof.
  cbn zeta.
  unfold handle_submit_tx, log, validate_tx, mbind, M_bind, bindM, getS, emit. simpl.
  rewrite <- app_assoc. simpl.
  set (tx_hex := trim (content event)).
  set (h_val := history s ++ [ALog LInfo "received transaction via websocket"; AValidate tx_hex]).
  assert (Hq : forall extra, Forall not_chan_send extra ->
            chan_sends (h_val ++ extra) = chan_sends (history s)).
  { intros extra Hx. subst h_val. rewrite <- app_assoc. apply chan_sends_quiet.
    repeat constructor; done. }
  assert (Hstep : forall s1 m txid success, clients s1 = clients s ->
            chan_sends (history s1) = chan_sends (history s) ->
            (send_tx_response client_id success m txid s1).1 = Ok tt /\
            chan_sends (history (send_tx_response client_id success m txid s1).2)
              = chan_sends (history s) ++
                reply_to s client_id (tx_response_event success m txid)).
  { intros s1 m txid success Hc Hh.
    destruct (send_tx_response_spec client_id success m txid s1) as (H1 & _ & H3).
    split; [done|]. rewrite H3, Hh. unfold reply_to. by rewrite Hc. }
  pose (st := fun extra => {| clients := clients s; remote_transactions := remote_transactions s;
                              next_chan := next_chan s; history := h_val ++ extra |}).
  assert (Hs1 : forall extra, Forall not_chan_send extra ->
            chan_sends (history (st extra)) = chan_sends (history s))
    by (intros; simpl; by apply Hq).
  pose (s2 := {| clients := clients s; remote_transactions := remote_transactions s;
                 next_chan := next_chan s; history := h_val |}).
  assert (Hs0 : chan_sends (history s2) = chan_sends (history s)).
  { simpl. rewrite <- (app_nil_r h_val). by apply Hq. }
  destruct (validate h_val tx_hex) as [|e] eqn:Hv.
  - destruct (hex_decode tx_hex) as [bytes|] eqn:Hx.
    + destruct (deserialize_tx bytes) as [tx|] eqn:Hd.
      * unfold catch.
        set (s_sub := {| clients := clients s; remote_transactions := remote_transactions s;
                         next_chan := next_chan s;
                         history := h_val ++ [ALog LInfo "decoded transaction"] |}).
        lazymatch goal with
        | |- context [submit_to_bitcoin_node tx_hex ?x] => change x with s_sub
        end.
        destruct (submit_quiet tx_hex (clients s) s_sub eq_refl) as [Hc3 [n [Hn Hqn]]].
        destruct (submit_to_bitcoin_node tx_hex s_sub) as [[txid|e] s3] eqn:Hsub;
          simpl in Hc3, Hn |- *.
        -- assert (Hh3 : chan_sends (history s3) = chan_sends (history s)).
           { rewrite Hn. subst s_sub. simpl. rewrite <- app_assoc. apply Hq.
             constructor; [done|exact Hqn]. }
           destruct (Hstep s3 "Transaction accepted" (tx_txid tx) true Hc3 Hh3) as [H1 H2].
           split; [done|]. repeat split; intros; simplify_eq; done.
        -- assert (Hh3 : chan_sends (history s3 ++ [ALog LError "failed to submit transaction to bitcoin node"])
                         = chan_sends (history s)).
           { rewrite Hn. subst s_sub. simpl. rewrite <- !app_assoc. apply Hq.
             constructor; [done|]. apply Forall_app. split; [exact Hqn|]. by repeat constructor. }
           destruct (Hstep {| clients := clients s3; remote_transactions := remote_transactions s3;
                              next_chan := next_chan s3;
                              history := history s3 ++
                                [ALog LError "failed to submit transaction to bitcoin node"] |}
                           (error_msg e) (tx_txid tx) false Hc3 Hh3) as [H1 H2].
           split; [done|]. repeat split; intros; simplify_eq; done.
      * destruct (Hstep (st _) "Invalid transaction format" EmptyString false eq_refl
                    (Hs1 [ALog LError "failed to deserialize transaction"] ltac:(by repeat constructor)))
          as [H1 H2].
        split; [done|]. repeat split; intros; simplify_eq; done.
    + destruct (Hstep (st _) "Invalid hex encoding" EmptyString false eq_refl
                  (Hs1 [ALog LError "failed to decode transaction hex"] ltac:(by repeat constructor)))
        as [H1 H2].
      split; [done|]. repeat split; intros; simplify_eq; done.
  -     destruct e as [| |size| |txid|reason| |];
    [ destruct (Hstep s2 (validation_error_to_string EmptyTransaction) EmptyString false eq_refl Hs0)
    | destruct (Hstep s2 (validation_error_to_string InvalidHex) EmptyString false eq_refl Hs0)
    | destruct (Hstep s2 (validation_error_to_string (InvalidSize size)) EmptyString false eq_refl Hs0)
    | destruct (Hstep s2 (validation_error_to_string InvalidStructure) EmptyString false eq_refl Hs0)
    | destruct (Hstep s2 "Transaction recently processed" EmptyString false eq_refl Hs0)
    | destruct (Hstep s2 (validation_error_to_string (BitcoinCoreRejection reason)) EmptyString false eq_refl Hs0)
    | destruct (Hstep s2 (validation_error_to_string Timeout) EmptyString false eq_refl Hs0)
    | destruct (Hstep s2 (validation_error_to_string Disabled) EmptyString false eq_refl Hs0) ];
    (split; [done|]); repeat split; intros; simplify_eq; try done.
    match goal with H : forall t, RecentlyProcessed _ <> _ |- _ => by destruct (H txid) end.
Qed.

(** C8: once [connect_async] has succeeded, the first frame sent on the bus
    socket, before any inbound traffic is handled, is
    [["REQ", "tx_relay_<relay_id>", {"#t":["bitcoin","transaction"],
    "kinds":[20012], "since":<now>}]] (serde_json orders the keys), and
    every later frame of the session is an [["EVENT", event]] frame. *)
Theorem try_connect_subscribes_first (items : list SelectItem) (s : St) :
  url_parses (strfry_url cfg) = true ->
  ws_connect_ok (history s ++ [AWsConnect (strfry_url cfg)]) (strfry_url cfg) = true ->
  let h1 := history s ++ [AWsConnect (strfry_url cfg); ALog LInfo "connected to strfry relay"] in
  exists rest,
    history (try_connect_to_strfry items s).2 =
      h1 ++ AWsSend (VArray [VString "REQ"; VString ("tx_relay_" +:+ relay_id cfg);
                             VObject [("#t", VArray [VString "bitcoin"; VString "transaction"]);
                                      ("kinds", VArray [VNumber 20012]);
                                      ("since", VNumber (Z.of_N (now_secs h1)))]]) :: rest /\
    forall f, AWsSend f ∈ rest -> exists ev, f = VArray [VString "EVENT"; event_to_value ev].
Proof.
  intros Hurl Hconn. cbn zeta.
  unfold try_connect_to_strfry, ws_send, log. rewrite Hurl. simpl negb. cbv iota.
  unfold mbind at 1, M_bind at 1, bindM at 1. simpl.
  unfold mbind at 1, M_bind at 1, bindM at 1. simpl. rewrite Hconn. simpl.
  unfold mbind, M_bind, bindM at 1 2 3. simpl. rewrite <- !app_assoc. simpl.
  set (h1 := history s ++ [AWsConnect (strfry_url cfg); ALog LInfo "connected to strfry relay"]).
  set (f := subscription (now_secs h1)).
  destruct (ws_send_ok _ f) eqn:Hok; simpl.
  - unfold bindM, emit. simpl.
    lazymatch goal with
    | |- context [select_loop items ?st] =>
        destruct (select_loop_frames items st I) as [_ [n [Hn Hf]]]; rewrite Hn
    end.
    exists (ALog LInfo "subscribed to transaction broadcasts" :: n). split.
    + unfold f, subscription, h1. simpl. by rewrite <- !app_assoc.
    + intros g Hg. apply elem_of_cons in Hg as [Hg|Hg]; [discriminate|].
      rewrite Forall_forall in Hf. exact (Hf _ Hg).
  - exists []. split.
    + unfold f, subscription, h1. by rewrite <- !app_assoc.
    + intros g Hg. by apply elem_of_nil in Hg.
Qed.

(** C7, as the code has it: [submit_to_bitcoin_node] reports an RPC error
    object as a plain [anyhow] message "Bitcoin RPC error: <error JSON>",
    with no "already known" kind; the remote handler recognises "already
    known" only by searching that message for "already in mempool" or
    "already exists", in which case it skips the warning; either way a
    failed submission ends the handler with [Ok]. *)
Theorem submit_error_is_message_only (tx_hex : string) (s : St) :
  let h := history s ++ [ARpc "sendrawtransaction" [VString tx_hex]] in
  (forall response err,
     http_post h (rpc_request_body "sendrawtransaction" [VString tx_hex]) = HttpOk response ->
     value_get "error" response = Some err -> err <> VNull ->
     (submit_to_bitcoin_node tx_hex s).1
       = Err (anyhow ("Bitcoin RPC error: " +:+ value_to_string err))) /\
  (forall e s1,
     submit_to_bitcoin_node tx_hex s = (Err e, s1) ->
     (submit_remote_tx tx_hex s).1 = Ok tt /\
     history (submit_remote_tx tx_hex s).2
       = history s1 ++
         (if contains (error_msg e) "already in mempool" || contains (error_msg e) "already exists"
          then [] else [ALog LWarn "failed to submit remote transaction"])).
Proof.
  cbn zeta. split.
  - intros response err Hpost Herr Hnn.
    unfold submit_to_bitcoin_node, rpc_call, mbind, M_bind, bindM, emit, getS. simpl.
    rewrite Hpost, Herr.
    destruct err; simpl; try reflexivity. contradiction.
  - intros e s1 Hsub.
    unfold submit_remote_tx, catch, mbind, M_bind, bindM. rewrite Hsub. simpl.
    destruct (contains (error_msg e) "already in mempool");
      destruct (contains (error_msg e) "already exists"); simpl;
      (split; [done|]); try reflexivity; by rewrite app_nil_r.
Qed.

(** C5, as the code has it: every event the Monitor publishes, to the
    uplink or to a client, is a [TX_BROADCAST] carrying the tag
    [["relay_id", config.relay_id]]; the [TX_RESPONSE] that
    [send_tx_response] delivers to a client carries no tag at all. *)
Theorem relay_id_tag_on_broadcasts_only (fuel : nat) (s : St)
    (client_id : string) (success : bool) (message txid : string) :
  (exists new,
     history (monitor_mempool fuel s).2 = history s ++ new /\
     forall a ev, a ∈ new -> publishes a = Some ev ->
       kind ev = KIND_TX_BROADCAST /\
       Generic (TK_Custom "relay_id") [relay_id cfg] ∈ tags ev) /\
  chan_sends (history (send_tx_response client_id success message txid s).2)
    = chan_sends (history s) ++ reply_to s client_id (tx_response_event success message txid) /\
  kind (tx_response_event success message txid) = KIND_TX_RESPONSE /\
  tags (tx_response_event success message txid) = [].
Proof.
  split; [|split; [apply send_tx_response_spec|done]].
  destruct (monitor_mempool_hist (remote_transactions s) fuel s eq_refl)
    as [_ [new [Hnew HP]]].
  exists new. split; [done|]. intros a ev Ha Hev.
  rewrite Forall_forall in HP. destruct (HP a Ha ev Hev) as (tx & t & -> & _).
  split; [done|]. unfold mk_broadcast_event, to_event, broadcast_tags. simpl.
  right. right. left.
Qed.

(* ------------------------------------------------------------------ *)
(** ** Further properties of the server *)

(** What a client's own message may do: reply on that client's channel,
    call the validator and the node, log; never publish to the bus, never
    mark a transaction remote, never touch the client registry. *)
Definition local_reply (C : gmap string nat) (client_id : string) (a : Action) : Prop :=
  match a with
  | AUplinkSend _ => False
  | AChanSend ch _ => C !! client_id = Some ch
  | ARemoteInsert _ => False
  | AClientInsert _ _ | AClientRemove _ | ASpawnOutbound _ | AAbortOutbound _ => False
  | _ => True
  end.

Definition not_client_op (a : Action) : Prop :=
  match a with
  | AClientInsert _ _ | AClientRemove _ | ASpawnOutbound _ | AAbortOutbound _ => False
  | _ => True
  end.


Lemma maps_only_clients C : maps_only (fun s => clients s = C).
Proof. intros s a H. exact H. Qed.

Lemma maps_only_clients_remote C R :
  maps_only (fun s => clients s = C /\ remote_transactions s = R).
Proof. intros s a H. exact H. Qed.

Lemma send_tx_response_local C R client_id success message txid :
  hist_inv (fun s => clients s = C /\ remote_transactions s = R) (local_reply C client_id)
    (send_tx_response client_id success message txid).
Proof.
  intros s [HC HR]. unfold send_tx_response, mbind, M_bind, bindM, getS. simpl.
  destruct (clients s !! client_id) as [ch|] eqn:E; simpl.
  - split; [done|]. eexists. split; [reflexivity|].
    constructor; [simpl; by rewrite <- HC|constructor].
  - split; [done|]. exists []. by rewrite app_nil_r.
Qed.

Lemma handle_nostr_message_local_hist C R message client_id :
  hist_inv (fun s => clients s = C /\ remote_transactions s = R) (local_reply C client_id)
    (handle_nostr_message message client_id).
Proof.
  pose proof (maps_only_clients_remote C R) as HI.
  unfold handle_nostr_message, handle_event, handle_submit_tx, handle_request_tx, log.
  repeat first [ hist_step
               | apply send_tx_response_local
               | apply validate_tx_hist; [assumption|]
               | apply submit_to_bitcoin_node_hist; [assumption|]
               | progress cbv zeta ];
  try done.
Qed.

Lemma handle_nostr_message_registry C message client_id :
  hist_inv (fun s => clients s = C) not_client_op (handle_nostr_message message client_id).
Proof.
  intros s Hs.
  destruct (handle_nostr_message_local_hist C (remote_transactions s) message client_id s
              (conj Hs eq_refl)) as [[H1 _] [n [Hn HP]]].
  split; [done|]. exists n. split; [done|].
  eapply Forall_impl; [exact HP|]. intros [] Ha; simpl in *; done.
Qed.

Lemma inbound_loop_registry C client_id items :
  hist_inv (fun s => clients s = C) not_client_op (inbound_loop client_id items).
Proof.
  pose proof (maps_only_clients C) as HI.
  induction items as [|[text| | | |e] rest IH]; simpl; unfold log;
    repeat first [ hist_step | apply handle_nostr_message_registry | apply IH ]; done.
Qed.

Lemma inbound_loop_ok client_id items s :
  (forall e, WsError e ∉ items) -> (inbound_loop client_id items s).1 = Ok tt.
Proof.
  revert s. induction items as [|it rest IH]; intros s Hne; [done|].
  assert (Hrest : forall e, WsError e ∉ rest) by (intros e He; apply (Hne e); by right).
  destruct it as [text| | | |e]; simpl.
  - unfold mbind at 1, M_bind at 1, bindM at 1, catch.
    destruct (handle_nostr_message text client_id s) as [r s1]. simpl.
    unfold mbind, M_bind, bindM. destruct r; simpl; by apply IH.
  - by apply IH.
  - by apply IH.
  - done.
  - exfalso. apply (Hne e). by left.
Qed.

Lemma select_loop_ok items s : (select_loop items s).1 = Ok tt.
Proof.
  revert s. induction items as [|[[[text| | | |e]|]|[ev|]] rest IH]; intros s; simpl; try done.
  - unfold mbind at 1, M_bind at 1, bindM at 1, catch.
    destruct (handle_strfry_message text s) as [r s1]. simpl.
    unfold mbind, M_bind, bindM. destruct r; simpl; apply IH.
  - unfold ws_send, mbind, M_bind, bindM, emit, getS. simpl.
    destruct (ws_send_ok _ _); simpl; [apply IH|done].
Qed.



(** X1: when the client's socket yields no error item (it ends, or sends
    a close frame, whatever its text frames contain), [handle_connection]
    returns [Ok], aborts the outbound task and removes the client exactly
    once, as its last two steps, and leaves the registry as it found it
    for every other client. *)
Theorem handle_connection_cleanup (client_id : string) (items : list WsItem) (s : St) :
  (forall e, WsError e ∉ items) ->
  (handle_connection client_id items s).1 = Ok tt /\
  clients (handle_connection client_id items s).2 = delete client_id (clients s) /\
  exists new,
    history (handle_connection client_id items s).2 =
      history s ++ [AClientInsert client_id (next_chan s); ASpawnOutbound client_id] ++ new ++
      [AAbortOutbound client_id; AClientRemove client_id] /\
    Forall not_client_op new.
Proof.
  intros Hne.
  unfold handle_connection, new_channel, insert_client, remove_client, emit,
    mbind, M_bind, bindM. simpl.
  lazymatch goal with
  | |- context [inbound_loop client_id items ?st] =>
      pose proof (inbound_loop_ok client_id items st Hne) as Hok;
      destruct (inbound_loop_registry (clients st) client_id items st eq_refl)
        as [HC [n [Hn HP]]];
      destruct (inbound_loop client_id items st) as [r s3]; simpl in *
  end.
  subst r. simpl. split; [done|]. split.
  - rewrite HC. apply delete_insert_eq.
  - exists n. split; [|done]. rewrite Hn. simpl. by rewrite <- !app_assoc.
Qed.





Lemma hist_insert_remote_clients C P txid :
  P (ARemoteInsert txid) -> hist_inv (fun s => clients s = C) P (insert_remote txid).
Proof. intros HP s HC. split; [done|]. exists [ARemoteInsert txid]. split; [done|by constructor]. Qed.

(** X4: a message from the bus never publishes anything, to the uplink or
    to a client, and never changes the client registry; it can only log,
    validate, mark a transaction remote and call the node. *)
Theorem handle_strfry_message_publishes_nothing (message : string) (s : St) :
  clients (handle_strfry_message message s).2 = clients s /\
  exists new,
    history (handle_strfry_message message s).2 = history s ++ new /\
    Forall (fun a => publishes a = None /\ not_client_op a) new.
Proof.
  pose proof (maps_only_clients (clients s)) as HI.
  assert (H : hist_inv (fun s0 => clients s0 = clients s)
                (fun a => publishes a = None /\ not_client_op a) (handle_strfry_message message)).
  { unfold handle_strfry_message, handle_remote_transaction.
    repeat first [ hist_step
                 | apply submit_remote_tx_hist; [assumption| |]
                 | apply validate_tx_hist; [assumption|]
                 | apply hist_insert_remote_clients ];
    try done. }
  exact (H s eq_refl).
Qed.

(** X5: a client's message stays with that client: it never publishes to
    the bus, never marks a transaction remote, never changes the client
    registry, and every event it sends goes to that client's own channel. *)
Theorem handle_nostr_message_local (message client_id : string) (s : St) :
  clients (handle_nostr_message message client_id s).2 = clients s /\
  remote_transactions (handle_nostr_message message client_id s).2 = remote_transactions s /\
  exists new,
    history (handle_nostr_message message client_id s).2 = history s ++ new /\
    Forall (local_reply (clients s) client_id) new.
Proof.
  destruct (handle_nostr_message_local_hist (clients s) (remote_transactions s) message client_id
              s (conj eq_refl eq_refl)) as [[HC HR] Hn].
  by repeat split.
Qed.

(** X6: the client library's [BitcoinNostrRelay::broadcast_transaction]:
    without a Nostr connection it fails with [Nostr(Disconnected)] and does
    nothing; with one it logs and sends exactly one frame,
    [["EVENT", event]] with the kind-20001 event of [send_tx_event], and
    then fails only if that send fails or the one reply it reads is a
    WebSocket error, which it reports as [RelayError::Other]. *)
Theorem relay_broadcast_transaction_outcome (tx_hex block_hash : string)
    (reply : option WsItem) (s : St) :
  relay_broadcast_transaction false tx_hex block_hash reply s = (Ok (RErr (RNostr Disconnected)), s) /\
  let frame := VArray [VString "EVENT"; event_to_value (tx_event tx_hex block_hash)] in
  let h := history s ++ [ALog LInfo "sending nostr event"; AWsSend frame] in
  (relay_broadcast_transaction true tx_hex block_hash reply s).1 =
    Ok (if ws_send_ok h frame then
          match reply with
          | Some (WsError e) => RErr (ROther e)
          | _ => ROk tt
          end
        else RErr (ROther "WebSocket send error")) /\
  exists rest,
    history (relay_broadcast_transaction true tx_hex block_hash reply s).2 = h ++ rest /\
    Forall (fun a => exists lvl what, a = ALog lvl what) rest.
Proof.
  split; [done|]. cbv zeta.
  unfold relay_broadcast_transaction, send_tx_event, nostr_send_event, ws_send, log, catch,
    emit, getS, fail, mbind, M_bind, bindM. simpl. rewrite <- !app_assoc. simpl.
  destruct (ws_send_ok _ _); simpl.
  - destruct reply as [[text| | | |e]|]; simpl; (split; [done|]);
      first [ exists []; split; [by rewrite app_nil_r|constructor]
            | eexists; split; [reflexivity|repeat constructor; eauto] ].
  - split; [done|]. exists []. split; [by rewrite app_nil_r|constructor].
Qed.

Lemma monitor_txid_ok (known : gset string) (txid : string) (s : St) (k : gset string) :
  (monitor_txid known txid s).1 = Ok k -> k = {[ txid ]} ∪ known.
Proof.
  unfold monitor_txid. case_decide as Hin.
  - simpl. intros [= <-]. apply leibniz_equiv. set_solver.
  - unfold mbind at 1, M_bind at 1, bindM at 1, getS at 1. simpl. apply then_ret_ok.
Qed.

Lemma monitor_diff_ok (todo : list string) (known : gset string) (s : St) (k : gset string) :
  (monitor_diff known todo s).1 = Ok k -> k = known ∪ list_to_set todo.
Proof.
  revert known s. induction todo as [|txid rest IH]; intros known s; simpl.
  - intros [= <-]. apply leibniz_equiv. set_solver.
  - unfold mbind at 1, M_bind at 1, bindM at 1.
    destruct (monitor_txid known txid s) as [[k1|e] s1] eqn:E; simpl; [|discriminate].
    intros H. apply IH in H as ->.
    assert (Hk1 : k1 = {[ txid ]} ∪ known) by (apply (monitor_txid_ok known txid s); by rewrite E).
    subst k1. apply leibniz_equiv. set_solver.
Qed.

(** X16: after a poll that completes, the monitor's [known_txids] is exactly
    the set of txids in the current mempool, whatever it held before: each
    new txid is inserted, then [retain] drops the ones that left. *)
Theorem mempool_diff_known_current (known : gset string) (current_txids : list string)
    (s : St) (known' : gset string) :
  (mempool_diff known current_txids s).1 = Ok known' -> known' = list_to_set current_txids.
Proof.
  unfold mempool_diff, mbind, M_bind, bindM.
  destruct (monitor_diff known current_txids s) as [[k|e] s1] eqn:E; simpl; [|discriminate].
  intros [= <-].
  assert (Hk : k = known ∪ list_to_set current_txids)
    by (apply (monitor_diff_ok current_txids known s); by rewrite E).
  subst k. apply leibniz_equiv. intros x.
  rewrite elem_of_filter, elem_of_union, !elem_of_list_to_set. naive_solver.
Qed.

End Server.

(* ------------------------------------------------------------------ *)
(** ** A concrete deployment

    One relay with [relay_id] "1", a Bitcoin node whose first
    [getrawmempool] fails and later ones list "t1", whose
    [getrawtransaction] answers the non-hex text "zz", and whose
    [sendrawtransaction] answers with a "Transaction already in mempool"
    error object; transactions are their byte lists. *)

Definition validation_default0 : ValidationConfig :=
  {| enable_validation := true; enable_precheck := true; validation_timeout_ms := 5000;
     cache_ttl_seconds := 300; cache_size := 1000 |}.

Definition cfg0 : RelayConfig :=
  RelayConfig_new validation_default0 "http://127.0.0.1:18443" "ws://127.0.0.1:7777" "1"
    {| sa_ip := [127; 0; 0; 1]%N; sa_port := 8080 |}.

Definition is_rpc (method : string) (a : Action) : bool :=
  match a with ARpc m _ => bool_decide (m = method) | _ => false end.

Definition rpc_ok (result : Value) : HttpResult :=
  HttpOk (VObject [("error", VNull); ("id", VNumber 1); ("result", result)]).

Definition rpc_error (code : Z) (message : string) : HttpResult :=
  HttpOk (VObject [("error", VObject [("code", VNumber code); ("message", VString message)]);
                   ("id", VNumber 1); ("result", VNull)]).

Definition http_post0 (h : list Action) (body : Value) : HttpResult :=
  match field_str "method" body with
  | Some m =>
      if bool_decide (m = "getrawmempool") then
        if bool_decide (length (filter (fun a => is_rpc "getrawmempool" a = true) h) <= 1)
        then HttpErr "connection refused"
        else rpc_ok (VArray [VString "t1"])
      else if bool_decide (m = "getrawtransaction") then rpc_ok (VString "zz")
      else if bool_decide (m = "sendrawtransaction") then
        rpc_error (-27) "Transaction already in mempool"
      else HttpErr "unknown method"
  | None => HttpErr "bad request"
  end.

Definition validate0 (h : list Action) (tx_hex : string) : ValidationResult :=
  if bool_decide (tx_hex = EmptyString) then ValErr EmptyTransaction else ValOk.

Definition json_parse0 (text : string) : option Value := None.
Definition event_of_value0 (v : Value) : option Event := None.
Definition event_to_value0 (ev : Event) : Value := VString (content ev).

Definition deserialize_tx0 (bytes : list Z) : option (list Z) := Some bytes.
Definition tx_txid0 (tx : list Z) : string := hex_encode tx.
Definition serialize_tx0 (tx : list Z) : list Z := tx.
Definition tx_version0 (tx : list Z) : Z := 2.
Definition tx_input_len0 (tx : list Z) : nat := 1.
Definition tx_output_len0 (tx : list Z) : nat := 1.

Definition now_secs0 (h : list Action) : N := 1700000000.
Definition url_parses0 (url : string) : bool := true.
Definition ws_connect_ok0 (h : list Action) (url : string) : bool := true.
Definition ws_send_ok0 (h : list Action) (frame : Value) : bool := true.

Definition s0 : St := mkSt ∅ ∅ 0 [].

Definition monitor_run0 (fuel : nat) : Res unit * St :=
  monitor_mempool cfg0 http_post0 deserialize_tx0 serialize_tx0 tx_version0
    tx_input_len0 tx_output_len0 fuel s0.

Definition connection_run0 (items : list WsItem) : Res unit * St :=
  handle_connection http_post0 validate0 json_parse0 event_of_value0 deserialize_tx0 tx_txid0
    "127.0.0.1:50000" items s0.

(** A bus event that this relay published itself. *)
Definition event_self : Event :=
  mkEvent KIND_TX_BROADCAST "{}"
    [Hashtag "bitcoin"; Hashtag "transaction"; Generic (TK_Custom "relay_id") ["1"]].

(** A state in which "t1" arrived from the bus. *)
Definition s_remote : St := mkSt ∅ {[ "t1" ]} 0 [].

(** A state in which client "c" is connected on channel 0. *)
Definition s_client : St := mkSt {[ "c" := 0%nat ]} ∅ 1 [].

(** A client submission with empty content. *)
Definition event_submit_empty : Event := mkEvent KIND_SUBMIT_TX EmptyString [].

(* ------------------------------------------------------------------ *)
(** ** Witnesses, counterexamples and divergences *)

(** C1 at a concrete input: our own broadcast comes back from the bus. *)
Lemma handle_remote_transaction_self_origin_witness :
  Generic (TK_Custom "relay_id") [relay_id cfg0] ∈ tags event_self /\
  handle_remote_transaction cfg0 http_post0 validate0 json_parse0 event_self s0 = (Ok tt, s0).
Proof.
  assert (H : Generic (TK_Custom "relay_id") [relay_id cfg0] ∈ tags event_self)
    by (simpl; right; right; left).
  split; [exact H|].
  exact (handle_remote_transaction_self_origin cfg0 http_post0 validate0 json_parse0
           event_self [] s0 H).
Defined.

(** C2 at a concrete input: "t1" is remote and appears in the mempool. *)
Lemma mempool_diff_skips_remote_witness :
  "t1" ∈ remote_transactions s_remote /\
  ("t1" ∈ ["t1"] -> forall known',
     (mempool_diff cfg0 http_post0 deserialize_tx0 serialize_tx0 tx_version0
        tx_input_len0 tx_output_len0 ∅ ["t1"] s_remote).1 = Ok known' ->
     "t1" ∈ known').
Proof.
  assert (H : "t1" ∈ remote_transactions s_remote) by (simpl; apply elem_of_singleton; reflexivity).
  split; [exact H|].
  exact (proj1 (proj2 (mempool_diff_skips_remote cfg0 http_post0 validate0 json_parse0
           event_of_value0 event_to_value0 deserialize_tx0 serialize_tx0 tx_version0
           tx_input_len0 tx_output_len0 url_parses0 ∅ ["t1"] s_remote "t1" H))).
Defined.

(** C8 at a concrete input: the connection and the URL are fine. *)
Lemma try_connect_subscribes_first_witness :
  url_parses0 (strfry_url cfg0) = true /\
  ws_connect_ok0 (history s0 ++ [AWsConnect (strfry_url cfg0)]) (strfry_url cfg0) = true /\
  exists h1 rest,
    history (try_connect_to_strfry cfg0 http_post0 validate0 json_parse0 event_of_value0
               event_to_value0 now_secs0 url_parses0 ws_connect_ok0 ws_send_ok0 [] s0).2
      = h1 ++ AWsSend (subscription cfg0 1700000000) :: rest.
Proof.
  assert (H1 : url_parses0 (strfry_url cfg0) = true) by reflexivity.
  assert (H2 : ws_connect_ok0 (history s0 ++ [AWsConnect (strfry_url cfg0)]) (strfry_url cfg0)
               = true) by reflexivity.
  split; [exact H1|split; [exact H2|]].
  pose proof (try_connect_subscribes_first cfg0 http_post0 validate0 json_parse0
                event_of_value0 event_to_value0 now_secs0 url_parses0 ws_connect_ok0
                ws_send_ok0 [] s0 H1 H2) as H.
  cbv zeta in H. destruct H as [rest [Hh _]].
  eexists. exists rest. rewrite Hh. reflexivity.
Defined.

(** C4: the first poll after start-up sees "t1", whose raw transaction
    "zz" is not hex; [hex::decode(&raw_tx)?] ends [monitor_mempool] with an
    error, with no log line and no sleep, whatever the number of polls left. *)
Theorem monitor_mempool_exits_on_bad_hex (n : nat) :
  (monitor_run0 (S n)).1 = Err (anyhow "hex decode error") /\
  history (monitor_run0 (S n)).2 =
    [ARpc "getrawmempool" []; ALog LWarn "failed to get initial mempool state";
     ALog LInfo "starting mempool monitoring";
     ARpc "getrawmempool" []; ARpc "getrawtransaction" [VString "t1"]].
Proof. split; vm_compute; reflexivity. Qed.

(** C5 fails: the reply to a client's empty submission is a [TX_RESPONSE]
    with no [relay_id] tag. *)
Lemma tx_response_without_relay_id :
  exists ev,
    (0%nat, ev) ∈ chan_sends (history (handle_submit_tx http_post0 validate0 deserialize_tx0
                                         tx_txid0 event_submit_empty "c" s_client).2) /\
    kind ev = KIND_TX_RESPONSE /\
    ~ (exists vs, Generic (TK_Custom "relay_id") vs ∈ tags ev).
Proof.
  exists (tx_response_event false (validation_error_to_string EmptyTransaction) EmptyString).
  split; [vm_compute; left|split; [reflexivity|]].
  intros [vs Hvs]. simpl in Hvs. by apply elem_of_nil in Hvs.
Qed.

(** C6: a client socket that yields a protocol error: [msg?] returns from
    [handle_connection] before [broadcast_task.abort()] and
    [clients.remove], so the client stays registered and its outbound task
    is never aborted; a close frame, by contrast, runs both. *)
Theorem handle_connection_error_skips_cleanup :
  (connection_run0 [WsError "protocol error"]).1 = Err (anyhow "protocol error") /\
  clients (connection_run0 [WsError "protocol error"]).2 !! "127.0.0.1:50000" = Some 0%nat /\
  history (connection_run0 [WsError "protocol error"]).2 =
    [AClientInsert "127.0.0.1:50000" 0; ASpawnOutbound "127.0.0.1:50000"] /\
  clients (connection_run0 [WsClose]).2 !! "127.0.0.1:50000" = None /\
  history (connection_run0 [WsClose]).2 =
    [AClientInsert "127.0.0.1:50000" 0; ASpawnOutbound "127.0.0.1:50000";
     ALog LInfo "client disconnected"; AAbortOutbound "127.0.0.1:50000";
     AClientRemove "127.0.0.1:50000"].
Proof. repeat split; vm_compute; reflexivity. Qed.

(** C7 fails: the node's "Transaction already in mempool" answer reaches
    the caller as a plain message, an [AnyError] with nothing but that
    message. *)
Lemma already_in_mempool_is_plain_message :
  exists msg,
    (submit_to_bitcoin_node http_post0 "00" s0).1 = Err (anyhow msg) /\
    contains msg "already in mempool" = true /\
    msg = "Bitcoin RPC error: " +:+
          value_to_string (VObject [("code", VNumber (-27));
                                    ("message", VString "Transaction already in mempool")]).
Proof. eexists. split; [vm_compute; reflexivity|]. split; vm_compute; reflexivity. Qed.

(* ------------------------------------------------------------------ *)
(** ** Further properties of the library: hex, configuration, RPC client *)

Lemma hex_val_hex_digit (n : N) : (n < 16)%N -> hex_val (hex_digit n) = Some (Z.of_N n).
Proof.
  intros Hn. rewrite <- (N2Nat.id n), nat_N_Z.
  assert (Hm : (N.to_nat n < 16)%nat) by lia.
  generalize dependent (N.to_nat n). intros m Hm.
  do 16 (destruct m as [|m]; [reflexivity|]). lia.
Qed.

Lemma hex_encode_length (bs : list Z) : String.length (hex_encode bs) = 2 * length bs.
Proof. induction bs as [|b bs IH]; simpl; lia. Qed.

Lemma hex_pairs_encode (bs : list Z) :
  Forall (fun b => (0 <= b < 256)%Z) bs -> hex_pairs (hex_encode bs) = Some bs.
Proof.
  induction 1 as [|b bs Hb _ IH]; [done|]. simpl.
  assert (0 <= b / 16 < 16)%Z by (split; [apply Z.div_pos|apply Z.div_lt_upper_bound]; lia).
  assert (0 <= b mod 16 < 16)%Z by (apply Z.mod_pos_bound; lia).
  rewrite !hex_val_hex_digit, IH by (apply N2Z.inj_lt; rewrite Z2N.id; lia).
  do 2 f_equal. rewrite !Z2N.id by lia. pose proof (Z.div_mod b 16). lia.
Qed.

Lemma hex_pairs_from_agrees (n : nat) (s : string) (i : nat) :
  String.length s <= n ->
  hex_pairs s = match hex_pairs_from i s with ROk bs => Some bs | RErr _ => None end.
Proof.
  revert s i. induction n as [|n IH]; intros s i Hs;
    destruct s as [|hi [|lo rest]]; simpl in *; try done; try lia.
  unfold hex_val_at. rewrite (IH rest (S (S i))) by lia.
  destruct (hex_val hi), (hex_val lo), (hex_pairs_from (S (S i)) rest); done.
Qed.

Lemma hex_decode_checked_agrees_aux (s : string) :
  hex_decode s = match hex_decode_checked s with ROk bs => Some bs | RErr _ => None end.
Proof.
  unfold hex_decode, hex_decode_checked.
  destruct (Nat.odd (String.length s)); [done|].
  by apply (hex_pairs_from_agrees (String.length s)).
Qed.

Lemma hex_pairs_from_error (n : nat) (s : string) (i : nat) (e : FromHexError) :
  String.length s <= n -> hex_pairs_from i s = RErr e ->
  (e = OddLength /\ Nat.odd (String.length s) = true) \/
  exists c k, e = InvalidHexCharacter c k /\ i <= k /\
    String.get (k - i) s = Some c /\ hex_val c = None /\
    forall j c', j < k - i -> String.get j s = Some c' -> is_Some (hex_val c').
Proof.
  revert s i e. induction n as [|n IH]; intros s i e Hs Herr;
    destruct s as [|hi [|lo rest]]; simpl in *; try done; try lia.
  - injection Herr as <-. by left.
  - unfold hex_val_at in Herr.
    destruct (hex_val hi) as [h|] eqn:Eh.
    + destruct (hex_val lo) as [l|] eqn:El.
      * destruct (hex_pairs_from (S (S i)) rest) as [bs|e'] eqn:Er; [done|].
        injection Herr as <-.
        destruct (IH rest (S (S i)) e' ltac:(lia) Er)
          as [[-> Hodd]|[c [k [-> [Hk [Hget [Hc Hbefore]]]]]]].
        -- left. split; [done|]. unfold Nat.odd in *. by simpl.
        -- right. exists c, k. split; [done|]. split; [lia|].
           replace (k - i) with (S (S (k - S (S i)))) by lia.
           split; [done|]. split; [done|].
           intros [|[|j]] c' Hj Hget'; simpl in Hget'.
           ++ injection Hget' as <-. by rewrite Eh.
           ++ injection Hget' as <-. by rewrite El.
           ++ apply (Hbefore j c'); [lia|done].
      * injection Herr as <-. right. exists lo, (S i).
        split; [done|]. split; [lia|].
        replace (S i - i) with 1 by lia. split; [done|]. split; [done|].
        intros j c' Hj Hget'. assert (j = 0) as -> by lia.
        injection Hget' as <-. by rewrite Eh.
    + injection Herr as <-. right. exists hi, i.
      split; [done|]. split; [lia|].
      replace (i - i) with 0 by lia. split; [done|]. split; [done|].
      intros j c' Hj. lia.
Qed.

(** X7: [hex::encode] then [hex::decode] gives the bytes back: the server
    sends transactions as [hex::encode(serialize(tx))] and decodes the hex
    it receives with [hex::decode]. *)
Theorem hex_decode_encode (bs : list Z) :
  Forall (fun b => (0 <= b < 256)%Z) bs -> hex_decode (hex_encode bs) = Some bs.
Proof.
  intros Hbs. unfold hex_decode.
  rewrite hex_encode_length, Nat.odd_mul. simpl.
  by apply hex_pairs_encode.
Qed.


(** X9: [hex::decode] reports [OddLength] exactly for strings of odd length,
    never [InvalidStringLength]. *)
Theorem hex_decode_checked_odd_length (s : string) :
  (hex_decode_checked s = RErr OddLength <-> Nat.odd (String.length s) = true) /\
  hex_decode_checked s <> RErr InvalidStringLength.
Proof.
  unfold hex_decode_checked.
  destruct (Nat.odd (String.length s)) eqn:Hodd; [done|].
  split.
  - split; [|done]. intros H.
    destruct (hex_pairs_from_error (String.length s) s 0 OddLength ltac:(lia) H)
      as [[_ H']|[c [k [Hck _]]]]; congruence.
  - intros H.
    destruct (hex_pairs_from_error (String.length s) s 0 InvalidStringLength ltac:(lia) H)
      as [[Hck _]|[c [k [Hck _]]]]; congruence.
Qed.

(** X10: an [InvalidHexCharacter { c, index }] from [hex::decode] names the
    first non-hex character of an even-length string and its position. *)
Theorem hex_decode_checked_invalid_char (s : string) (c : ascii) (index : nat) :
  hex_decode_checked s = RErr (InvalidHexCharacter c index) ->
  Nat.odd (String.length s) = false /\
  String.get index s = Some c /\ hex_val c = None /\
  forall j c', j < index -> String.get j s = Some c' -> is_Some (hex_val c').
Proof.
  unfold hex_decode_checked. intros H.
  destruct (Nat.odd (String.length s)) eqn:Hodd; [done|].
  destruct (hex_pairs_from_error (String.length s) s 0 _ ltac:(lia) H)
    as [[Hck _]|[c' [k [Hck [_ [Hget [Hc Hbefore]]]]]]]; [done|].
  injection Hck as <- <-. rewrite Nat.sub_0_r in Hget, Hbefore.
  split; [done|]. split; [done|]. split; [done|]. exact Hbefore.
Qed.


Lemma client_rpc_call_ok (post : BitcoinRpcClient -> Value -> HttpResult)
    (client : BitcoinRpcClient) (method : string) (params r : Value) :
  client_rpc_call post client method params = ROk r <->
  exists response,
    post client (VObject [("id", VNumber 1); ("jsonrpc", VString "2.0");
                          ("method", VString method); ("params", params)]) = HttpOk response /\
    value_get "result" response = Some r /\
    forall error, value_get "error" response = Some error -> value_is_null error = true.
Proof.
  unfold client_rpc_call.
  destruct (post client _) as [response|e]; [|split; [done|by intros [? [? _]]]].
  split.
  - intros H. exists response. split; [done|].
    destruct (value_get "error" response) as [error|] eqn:Ee.
    + destruct (value_is_null error) eqn:En; [|done].
      destruct (value_get "result" response) eqn:Er; [|done].
      injection H as ->. split; [done|]. intros ? [= <-]. done.
    + destruct (value_get "result" response) eqn:Er; [|done].
      injection H as ->. split; [done|]. done.
  - intros [response' [[= <-] [Hr He]]]. rewrite Hr.
    destruct (value_get "error" response) as [error|]; [|done].
    by rewrite (He error eq_refl).
Qed.

(** X12: [BitcoinRpcClient::rpc_call] once the POST has answered: a non-null
    ["error"] wins over any ["result"] and becomes [RequestFailed] with the
    error's JSON text; otherwise the ["result"] is returned, or
    [InvalidResponse] when it is missing; no [Http] error is reported. *)
Theorem client_rpc_call_outcome (post : BitcoinRpcClient -> Value -> HttpResult)
    (client : BitcoinRpcClient) (method : string) (params response : Value) :
  post client (VObject [("id", VNumber 1); ("jsonrpc", VString "2.0");
                        ("method", VString method); ("params", params)]) = HttpOk response ->
  (forall error, value_get "error" response = Some error -> value_is_null error = false ->
     client_rpc_call post client method params
       = RErr (RBitcoinRpc (RequestFailed ("RPC error: " +:+ value_to_string error)))) /\
  (forall r, client_rpc_call post client method params = ROk r <->
     value_get "result" response = Some r /\
     forall error, value_get "error" response = Some error -> value_is_null error = true) /\
  (client_rpc_call post client method params = RErr (RBitcoinRpc InvalidResponse) <->
     value_get "result" response = None /\
     forall error, value_get "error" response = Some error -> value_is_null error = true) /\
  (forall e, client_rpc_call post client method params <> RErr (RHttp e)).
Proof.
  intros Hpost. unfold client_rpc_call. rewrite Hpost.
  split; [|split; [|split]].
  - intros error He Hn. by rewrite He, Hn.
  - intros r.
    destruct (value_get "error" response) as [error|] eqn:Ee.
    + destruct (value_is_null error) eqn:En.
      * destruct (value_get "result" response); split.
        -- intros [= ->]. split; [done|]. by intros ? [= <-].
        -- by intros [[= ->] _].
        -- done.
        -- by intros [? _].
      * split; [done|]. intros [_ H]. by rewrite (H error eq_refl) in En.
    + destruct (value_get "result" response); split.
      * intros [= ->]. by split.
      * by intros [[= ->] _].
      * done.
      * by intros [? _].
  - destruct (value_get "error" response) as [error|] eqn:Ee.
    + destruct (value_is_null error) eqn:En.
      * destruct (value_get "result" response); split; try done.
        -- by intros [? _].
        -- intros _. split; [done|]. by intros ? [= <-].
      * split; [done|]. intros [_ H]. by rewrite (H error eq_refl) in En.
    + destruct (value_get "result" response); split; try done.
      by intros [? _].
  - intros e.
    destruct (value_get "error" response) as [error|];
      [destruct (value_is_null error)|]; destruct (value_get "result" response); done.
Qed.

(** X13: [get_best_block_hash] succeeds exactly when the node answers
    [getbestblockhash] (no parameters) with a null or absent error and a
    string result that [BlockHash::from_str] parses. *)
Theorem get_best_block_hash_ok {BlockHash : Type}
    (post : BitcoinRpcClient -> Value -> HttpResult)
    (block_hash_from_str : string -> RResult BlockHash string)
    (client : BitcoinRpcClient) (hash : BlockHash) :
  get_best_block_hash post block_hash_from_str client = ROk hash <->
  exists response hash_str,
    post client (VObject [("id", VNumber 1); ("jsonrpc", VString "2.0");
                          ("method", VString "getbestblockhash"); ("params", VArray [])])
      = HttpOk response /\
    value_get "result" response = Some (VString hash_str) /\
    (forall error, value_get "error" response = Some error -> value_is_null error = true) /\
    block_hash_from_str hash_str = ROk hash.
Proof.
  unfold get_best_block_hash. split.
  - destruct (client_rpc_call post client _ _) as [result|e] eqn:Hc; [|done].
    apply client_rpc_call_ok in Hc as [response [Hp [Hr He]]].
    destruct result; try done. simpl.
    destruct (block_hash_from_str s) eqn:Hb; [|done]. intros [= ->].
    by exists response, s.
  - intros [response [hash_str [Hp [Hr [He Hb]]]]].
    assert (Hc : client_rpc_call post client "getbestblockhash" (VArray []) = ROk (VString hash_str))
      by (apply client_rpc_call_ok; by exists response).
    by rewrite Hc; simpl; rewrite Hb.
Qed.

(** X14: [get_block] succeeds exactly when the node answers [getblock] with
    parameters [[hash, 0]] (the raw block) with a null or absent error and
    a string result that is hex (as the server's [hex::decode] reads it)
    whose bytes deserialize to the block. *)
Theorem get_block_ok {BlockHash Block : Type}
    (post : BitcoinRpcClient -> Value -> HttpResult)
    (block_hash_to_string : BlockHash -> string)
    (deserialize_block : list Z -> RResult Block string)
    (client : BitcoinRpcClient) (hash : BlockHash) (block : Block) :
  get_block post block_hash_to_string deserialize_block client hash = ROk block <->
  exists response block_hex block_bytes,
    post client (VObject [("id", VNumber 1); ("jsonrpc", VString "2.0");
                          ("method", VString "getblock");
                          ("params", VArray [VString (block_hash_to_string hash); VNumber 0])])
      = HttpOk response /\
    value_get "result" response = Some (VString block_hex) /\
    (forall error, value_get "error" response = Some error -> value_is_null error = true) /\
    hex_decode block_hex = Some block_bytes /\
    deserialize_block block_bytes = ROk block.
Proof.
  unfold get_block. split.
  - destruct (client_rpc_call post client _ _) as [result|e] eqn:Hc; [|done].
    apply client_rpc_call_ok in Hc as [response [Hp [Hr He]]].
    destruct result; try done. simpl.
    destruct (hex_decode_checked s) as [bytes|] eqn:Hx; [|done].
    destruct (deserialize_block bytes) eqn:Hd; [|done]. intros [= ->].
    exists response, s, bytes. repeat split; try done.
    by rewrite hex_decode_checked_agrees_aux, Hx.
  - intros [response [block_hex [block_bytes [Hp [Hr [He [Hx Hd]]]]]]].
    rewrite (proj2 (client_rpc_call_ok _ _ _ _ (VString block_hex))) by (by exists response).
    simpl. rewrite hex_decode_checked_agrees_aux in Hx.
    destruct (hex_decode_checked block_hex); [|done]. injection Hx as ->. by rewrite Hd.
Qed.


(* ------------------------------------------------------------------ *)
(** ** Witnesses of the further properties *)

(** A library RPC client whose node answers every call with the block
    count 800000. *)
Definition rpc_client0 : BitcoinRpcClient :=
  BitcoinRpcClient_new "http://127.0.0.1:18443" "user" "password".

Definition client_post0 (client : BitcoinRpcClient) (request : Value) : HttpResult :=
  rpc_ok (VNumber 800000).

(** A client that sends one text frame and closes. *)
Lemma handle_connection_cleanup_witness :
  (forall e, WsError e ∉ [WsText "x"; WsClose]) /\
  (connection_run0 [WsText "x"; WsClose]).1 = Ok tt /\
  clients (connection_run0 [WsText "x"; WsClose]).2 = delete "127.0.0.1:50000" (clients s0).
Proof.
  assert (H : forall e, WsError e ∉ [WsText "x"; WsClose]).
  { intros e. rewrite !elem_of_cons, elem_of_nil. intros [H|[H|H]]; [discriminate|discriminate|done]. }
  split; [exact H|].
  destruct (handle_connection_cleanup http_post0 validate0 json_parse0 event_of_value0
              deserialize_tx0 tx_txid0 "127.0.0.1:50000" [WsText "x"; WsClose] s0 H)
    as [Hok [Hcl _]].
  split; [exact Hok|exact Hcl].
Defined.

(** The bytes 00, ab and ff. *)
Lemma hex_decode_encode_witness :
  Forall (fun b => (0 <= b < 256)%Z) [0; 171; 255]%Z /\
  hex_decode (hex_encode [0; 171; 255]%Z) = Some [0; 171; 255]%Z.
Proof.
  assert (H : Forall (fun b => (0 <= b < 256)%Z) [0; 171; 255]%Z) by (repeat constructor; lia).
  split; [exact H|exact (hex_decode_encode [0; 171; 255]%Z H)].
Defined.

(** "0g": the second character is not hex. *)
Lemma hex_decode_checked_invalid_char_witness :
  hex_decode_checked "0g" = RErr (InvalidHexCharacter "g" 1) /\
  String.get 1 "0g" = Some "g"%char.
Proof.
  assert (H : hex_decode_checked "0g" = RErr (InvalidHexCharacter "g" 1)) by reflexivity.
  split; [exact H|].
  exact (proj1 (proj2 (hex_decode_checked_invalid_char "0g" "g" 1 H))).
Defined.

(** A [getblockcount] answered with a null error and a result. *)
Lemma client_rpc_call_outcome_witness :
  client_post0 rpc_client0
    (VObject [("id", VNumber 1); ("jsonrpc", VString "2.0");
              ("method", VString "getblockcount"); ("params", VArray [])])
    = HttpOk (VObject [("error", VNull); ("id", VNumber 1); ("result", VNumber 800000)]) /\
  client_rpc_call client_post0 rpc_client0 "getblockcount" (VArray []) = ROk (VNumber 800000).
Proof.
  assert (H : client_post0 rpc_client0
                (VObject [("id", VNumber 1); ("jsonrpc", VString "2.0");
                          ("method", VString "getblockcount"); ("params", VArray [])])
              = HttpOk (VObject [("error", VNull); ("id", VNumber 1);
                                 ("result", VNumber 800000)])) by reflexivity.
  split; [exact H|].
  apply (proj2 (proj1 (proj2 (client_rpc_call_outcome client_post0 rpc_client0 "getblockcount"
                                 (VArray []) _ H)) (VNumber 800000))).
  split; [reflexivity|]. intros error [= <-]. reflexivity.
Defined.

(** "t1" is in the mempool and came from the bus. *)
Lemma mempool_diff_known_current_witness :
  (mempool_diff cfg0 http_post0 deserialize_tx0 serialize_tx0 tx_version0
     tx_input_len0 tx_output_len0 ∅ ["t1"] s_remote).1 = Ok {[ "t1" ]} /\
  {[ "t1" ]} = list_to_set (C:=gset string) ["t1"].
Proof.
  assert (H : (mempool_diff cfg0 http_post0 deserialize_tx0 serialize_tx0 tx_version0
                 tx_input_len0 tx_output_len0 ∅ ["t1"] s_remote).1 = Ok {[ "t1" ]})
    by (vm_compute; reflexivity).
  split; [exact H|].
  exact (mempool_diff_known_current cfg0 http_post0 json_parse0 deserialize_tx0 serialize_tx0
           tx_version0 tx_input_len0 tx_output_len0 url_parses0 ∅ ["t1"] s_remote {[ "t1" ]} H).
Defined.
